(** * testfixtures: the fixture-loading engine

    A shallow embedding of [testfixtures.go]: the record-to-SQL compiler
    ([buildInsertSQL]), the per-file delete and insert steps, and the
    transactional [Load] protocol, together with the properties the
    specification states about them.

    Go strings are byte strings ([string]); the Go [int] counter of
    [buildInsertSQL] is a [Z]; values decoded by the YAML library are a small
    tagged union; database effects are a state monad over the log of the
    calls made on the connection. *)

From Stdlib Require Import String Ascii List ZArith Bool Lia DecimalString.
From Stdlib Require Import FunctionalExtensionality Permutation.
Import ListNotations.
Open Scope string_scope.

(** ** The Go library functions the code calls *)

Module GoLib.

(** [fmt.Sprintf("%d", i)]. *)
Definition fmtInt (i : Z) : string := NilZero.string_of_int (Z.to_int i).

(** [s[n:]] on a byte string. *)
Fixpoint dropBytes (n : nat) (s : string) : string :=
  match n, s with
  | O, _ => s
  | S _, EmptyString => EmptyString
  | S n', String _ s' => dropBytes n' s'
  end.

(** The backward scan of [filepath.Ext]: [rev_path] is the path read from
    its last byte; [suffix] is what has been passed over.  The scan stops at
    a path separator with no extension, and at the first dot met (the last
    one of the path) with the suffix that starts there. *)
Fixpoint extScan (rev_path : list ascii) (suffix : string) : string :=
  match rev_path with
  | [] => EmptyString
  | c :: more =>
      if Ascii.eqb c "/" then EmptyString
      else if Ascii.eqb c "." then String c suffix
      else extScan more (String c suffix)
  end.

(** [filepath.Ext(path)]. *)
Definition filepath_Ext (path : string) : string :=
  extScan (rev (list_ascii_of_string path)) EmptyString.

(** [strings.Replace(s, old, new, 1)]: the first occurrence of [old] in [s],
    scanning from the left, is replaced by [new]; [s] is returned as it is
    when [old] equals [new] or does not occur. *)
Fixpoint replaceLeftmost (s old new : string) : string :=
  if prefix old s then new ++ dropBytes (String.length old) s
  else match s with
       | EmptyString => EmptyString
       | String c s' => String c (replaceLeftmost s' old new)
       end.

Definition strings_Replace1 (s old new : string) : string :=
  if String.eqb old new then s else replaceLeftmost s old new.

(** [strings.TrimSuffix(s, suffix)] (not called by the code; the reading of
    "extension stripped" that the table name is compared with). *)
Definition strings_TrimSuffix (s suffix : string) : string :=
  let n := String.length s - String.length suffix in
  if String.eqb (dropBytes n s) suffix then substring 0 n s else s.

End GoLib.
Import GoLib.

(** ** Files *)

Module GoFiles.

(** An [os.FileInfo], as far as the code looks at it. *)
Record FileInfo : Type := {
  Name : string;
  IsDir : bool
}.

(** The errors of [ioutil.ReadDir] and [ioutil.ReadFile]; they are the only
    errors that [NewFolder] and [NewFiles] return. *)
Inductive fsError : Type :=
| PathError (op path msg : string).

(** The first loop of [filepath.Base], on the path read from its last byte:
    trailing separators are dropped. *)
Fixpoint stripSlashes (rev_path : list ascii) : list ascii :=
  match rev_path with
  | [] => []
  | c :: more => if Ascii.eqb c "/" then stripSlashes more else rev_path
  end.

(** The second loop of [filepath.Base]: what follows the last separator. *)
Fixpoint lastElement (rev_path : list ascii) (suffix : string) : string :=
  match rev_path with
  | [] => suffix
  | c :: more =>
      if Ascii.eqb c "/" then suffix else lastElement more (String c suffix)
  end.

(** [filepath.Base(path)] (no volume names: the separator is the slash). *)
Definition filepath_Base (path : string) : string :=
  if String.eqb path EmptyString then "."
  else
    let last := lastElement (stripSlashes (rev (list_ascii_of_string path))) EmptyString in
    if String.eqb last EmptyString then "/" else last.

(** A byte that occurs nowhere in a string. *)
Definition noByte (c : ascii) (s : string) : bool :=
  negb (existsb (Ascii.eqb c) (list_ascii_of_string s)).

End GoFiles.
Import GoFiles.

(** ** Values *)

(** What [yaml.Unmarshal] stores in an [interface{}]: [nil], a scalar, a
    [[]interface{}] or a [map[interface{}]interface{}].  A map is given by its
    entries in the order one [range] over it enumerates them (each key once);
    a float is kept as its bit pattern, the code never computes with it. *)
#[local] Set Warnings "-register-all".
Inductive yvalue : Type :=
| YNil
| YBool (b : bool)
| YInt (n : Z)
| YFloat (bits : Z)
| YString (s : string)
| YSlice (items : list yvalue)
| YMap (entries : list (yvalue * yvalue)).

#[local] Set Warnings "+register-all".

Definition record := list (yvalue * yvalue).

(** The package's error values, and the errors of its collaborators. *)
Inductive error : Type :=
| ErrWrongCastNotAMap
| ErrFileIsNotSliceOrMap
| ErrKeyIsNotString
| errNotTestDatabase
| errYAML (msg : string)
| errDriver (msg : string).

(** [Helper.paramType()] is an [int]; the three constants the switch of
    [buildInsertSQL] names, and any other value. *)
Inductive ParamType : Type :=
| paramTypeDollar
| paramTypeQuestion
| paramTypeColon
| paramTypeOther (n : Z).

(** ** The connection: a log of calls, and a monad over it *)

Inductive event : Type :=
| EvDatabaseName (name : string)
| EvIntegrityOff
| EvIntegrityOn
| EvTableBegin (table : string)
| EvTableEnd (table : string)
| EvExec (sql : string) (args : list yvalue) (res : option error).

Definition World := list event.

(** A Go call either returns or panics. *)
Inductive outcome (A : Type) : Type :=
| Done (a : A)
| Panicked (msg : string).
Arguments Done {A} a.
Arguments Panicked {A} msg.

Definition M (A : Type) : Type := World -> outcome A * World.

Definition ret {A} (a : A) : M A := fun w => (Done a, w).

Definition bind {A B} (m : M A) (k : A -> M B) : M B :=
  fun w => match m w with
           | (Done a, w') => k a w'
           | (Panicked msg, w') => (Panicked msg, w')
           end.

Definition emit (e : event) : M unit := fun w => (Done tt, (w ++ [e])%list).

Definition panic {A} (msg : string) : M A := fun w => (Panicked msg, w).

Notation "x <- m ;; k" := (bind m (fun x => k))
  (at level 61, m at next level, right associativity).
Notation "m ;;; k" := (bind m (fun _ => k))
  (at level 61, right associativity).

(** [*sql.DB] and [*sql.Tx] are handles; the state they give access to is the
    [World]. *)
Inductive sqlDB : Type := SqlDB (dsn : string).
Inductive sqlTx : Type := SqlTx (conn : sqlDB).

(** The [Helper] interface. *)
Record Helper : Type := {
  databaseName : sqlDB -> M string;
  quoteKeyword : string -> string;
  paramType : ParamType;
  disableReferentialIntegrity : sqlDB -> (sqlTx -> M (option error)) -> M (option error);
  whileInsertOnTable : sqlTx -> string -> (unit -> M (option error)) -> M (option error)
}.

Record fixtureFile : Type := {
  path : string;
  fileName : string;
  content : string
}.

Record Context : Type := {
  db : sqlDB;
  helper : Helper;
  fixturesFiles : list fixtureFile
}.

(** ** The code *)

Definition fileNameWithoutExtension (f : fixtureFile) : string :=
  strings_Replace1 (fileName f) (filepath_Ext (fileName f)) EmptyString.

(** ** The contract of the helpers, the table store, sample data *)

(** Modelled from the spec: the implementations of [Helper] are not in
    [testfixtures.go].  [disableReferentialIntegrity] suspends enforcement,
    runs the body once on a transaction of the connection and restores
    enforcement whatever the body returned; [whileInsertOnTable] runs its
    pre and post actions around one call of the body; [databaseName] resolves
    the name with one query.  The helper's own statements are the marker
    events. *)
Definition bracketing (name : string) (h : Helper) : Prop :=
  (forall d w, databaseName h d w = (Done name, (w ++ [EvDatabaseName name])%list))
  /\ (forall d body w,
        disableReferentialIntegrity h d body w =
        (emit EvIntegrityOff ;;; r <- body (SqlTx d) ;; emit EvIntegrityOn ;;; ret r) w)
  /\ (forall tx table body w,
        whileInsertOnTable h tx table body w =
        (emit (EvTableBegin table) ;;; r <- body tt ;; emit (EvTableEnd table) ;;; ret r) w).

(** The helper that does this and nothing more. *)
Definition bracketHelper (name : string) (quote : string -> string) (pt : ParamType)
  : Helper :=
  {| databaseName := fun _ => emit (EvDatabaseName name) ;;; ret name;
     quoteKeyword := quote;
     paramType := pt;
     disableReferentialIntegrity := fun d body =>
       emit EvIntegrityOff ;;; r <- body (SqlTx d) ;; emit EvIntegrityOn ;;; ret r;
     whileInsertOnTable := fun _ table body =>
       emit (EvTableBegin table) ;;; r <- body tt ;; emit (EvTableEnd table) ;;; ret r |}.

(** A helper with another [databaseName] method and the rest unchanged. *)
Definition withDatabaseName (h : Helper) (dn : sqlDB -> M string) : Helper :=
  {| databaseName := dn;
     quoteKeyword := quoteKeyword h;
     paramType := paramType h;
     disableReferentialIntegrity := disableReferentialIntegrity h;
     whileInsertOnTable := whileInsertOnTable h |}.

(** Modelled from the spec: the tables of the database, read off the log.
    How the engine reads the text of a statement is the engine's affair: an
    [Engine] says which table an accepted statement wipes, or which row it
    adds to which table.  A successful wipe of [q] empties [q], a successful
    insert into [q] adds its row, nothing else changes [q]; rows are kept in
    the order of arrival, and two tables hold the same contents when one list
    is a permutation of the other. *)
Record Engine : Type := {
  Row : Type;
  deleteOf : string -> option string;
  insertOf : string -> list yvalue -> option (string * Row)
}.

Inductive effect (E : Engine) : Type :=
| Wipes (q : string)
| Adds (q : string) (row : Row E)
| Nothing.
Arguments Wipes {E} q.
Arguments Adds {E} q row.
Arguments Nothing {E}.

Definition effectOf (E : Engine) (ev : event) : effect E :=
  match ev with
  | EvExec sql args None =>
      match deleteOf E sql with
      | Some q => Wipes q
      | None =>
          match insertOf E sql args with
          | Some (q, row) => Adds q row
          | None => Nothing
          end
      end
  | _ => Nothing
  end.

Definition applyEffect (E : Engine) (q : string) (rows : list (Row E)) (e : effect E)
  : list (Row E) :=
  match e with
  | Wipes q' => if String.eqb q' q then [] else rows
  | Adds q' row => if String.eqb q' q then (rows ++ [row])%list else rows
  | Nothing => rows
  end.

Definition applyEvent (E : Engine) (q : string) (rows : list (Row E)) (ev : event)
  : list (Row E) :=
  applyEffect E q rows (effectOf E ev).

Definition tableContents (E : Engine) (q : string) (w : World) : list (Row E) :=
  fold_left (applyEvent E q) w [].

(** The rows that a list of effects adds to [q]. *)
Definition addedTo (E : Engine) (q : string) (effects : list (effect E)) : list (Row E) :=
  flat_map (fun e => match e with
                     | Adds q' row => if String.eqb q' q then [row] else []
                     | _ => []
                     end) effects.

(** Two decodes of one document: [yaml.Unmarshal] builds its maps afresh on
    every call and Go ranges over a map in an order of its choosing, so the
    entries of every mapping come in any order; sequences keep theirs. *)
Definition sameRow (row row' : yvalue) : Prop :=
  match row, row' with
  | YMap rec, YMap rec' => Permutation rec rec'
  | _, _ => row = row'
  end.

Definition sameDocument (d d' : yvalue + error) : Prop :=
  match d, d' with
  | inl (YSlice items), inl (YSlice items') => Forall2 sameRow items items'
  | inl (YMap entries), inl (YMap entries') =>
      exists shuffled,
        Permutation entries shuffled
        /\ Forall2 (fun e e' => fst e = fst e' /\ sameRow (snd e) (snd e')) shuffled entries'
  | _, _ => d = d'
  end.

(** A record all of whose keys are strings. *)
Definition stringRecord (cols : list (string * yvalue)) : record :=
  map (fun kv => (YString (fst kv), snd kv)) cols.

Definition isStringKey (key : yvalue) : bool :=
  match key with YString _ => true | _ => false end.

(** A [float64] that is not a number: exponent bits all set, mantissa not
    zero.  Such a key is in a map but is never found in it. *)
Definition isNaN (bits : Z) : bool :=
  (Z.land (Z.shiftr bits 52) 2047 =? 2047)%Z && negb (Z.land bits (2 ^ 52 - 1) =? 0)%Z.

Definition isNaNKey (key : yvalue) : bool :=
  match key with YFloat bits => isNaN bits | _ => false end.

Module Sample.

(** MySQL's quoting. *)
Definition quoteBacktick (s : string) : string := "`" ++ s ++ "`".

Definition mysql : Helper := bracketHelper "app_test" quoteBacktick paramTypeQuestion.
Definition postgres : Helper := bracketHelper "app_test" quoteBacktick paramTypeDollar.
Definition oracle : Helper := bracketHelper "app_test" quoteBacktick paramTypeColon.
Definition production : Helper := bracketHelper "production" quoteBacktick paramTypeDollar.

(** Shapes of digits and literal bytes, found anywhere in a string. *)
Inductive shape : Type := Digit | Lit (c : ascii).

Definition isDigit (c : ascii) : bool :=
  let n := nat_of_ascii c in (48 <=? n)%nat && (n <=? 57)%nat.

Fixpoint matchHere (p : list shape) (s : string) : bool :=
  match p, s with
  | [], _ => true
  | _ :: _, EmptyString => false
  | Digit :: p', String c s' => isDigit c && matchHere p' s'
  | Lit a :: p', String c s' => Ascii.eqb a c && matchHere p' s'
  end.

Fixpoint matchAnywhere (p : list shape) (s : string) : bool :=
  matchHere p s ||
  match s with
  | EmptyString => false
  | String _ s' => matchAnywhere p s'
  end.

Definition datePattern : list shape :=
  [Digit; Digit; Digit; Digit; Lit "-"; Digit; Digit; Lit "-"; Digit; Digit]%char.
Definition timePattern : list shape :=
  [Digit; Digit; Lit ":"; Digit; Digit; Lit ":"; Digit; Digit]%char.
Definition dateTimePattern : list shape :=
  (datePattern ++ [Lit " "%char] ++ timePattern)%list.

Definition onString (p : list shape) (v : yvalue) : bool :=
  match v with YString s => matchAnywhere p s | _ => false end.

Definition isDateTime := onString dateTimePattern.
Definition isDate := onString datePattern.
Definition isTime := onString timePattern.

Definition isTestName (name : string) : bool := String.eqb name "app_test".

Definition post1 : record :=
  [(YString "id", YInt 1); (YString "created_at", YString "2016-01-01 12:30:12")].
Definition post2 : record :=
  [(YString "id", YInt 2); (YString "day", YString "2016-01-02")].
Definition badKey : record := [(YString "id", YInt 3); (YInt 7, YString "seven")].

(** Sample documents, and what the YAML library returns on them. *)
Definition postsYml : string :=
  "[{id: 1, created_at: '2016-01-01 12:30:12'}, {id: 2, day: '2016-01-02'}]".
Definition tagsYml : string := "{go: {id: 2, day: '2016-01-02'}}".
Definition brokenYml : string :=
  "[{id: 1, created_at: '2016-01-01 12:30:12'}, {id: 3, 7: seven}, {id: 2, day: '2016-01-02'}]".
Definition scalarYml : string := "just text".

Definition yaml (doc : string) : yvalue + error :=
  if String.eqb doc postsYml then inl (YSlice [YMap post1; YMap post2])
  else if String.eqb doc tagsYml then inl (YMap [(YString "go", YMap post2)])
  else if String.eqb doc brokenYml then inl (YSlice [YMap post1; YMap badKey; YMap post2])
  else if String.eqb doc scalarYml then inl (YString "just text")
  else if String.eqb doc EmptyString then inl YNil
  else inr (errYAML "cannot unmarshal").

Definition file (name doc : string) : fixtureFile :=
  {| path := "fixtures/" ++ name; fileName := name; content := doc |}.

Definition posts := file "posts.yml" postsYml.
Definition tags := file "tags.yml" tagsYml.
Definition broken := file "broken.yml" brokenYml.
Definition scalar := file "scalar.yml" scalarYml.
Definition empty := file "empty.yml" EmptyString.

Definition conn : sqlDB := SqlDB "dbname=app_test".

Definition context (h : Helper) (files : list fixtureFile) : Context :=
  {| db := conn; helper := h; fixturesFiles := files |}.

(** A database on which every statement succeeds, and one that refuses a
    given statement. *)
Definition accepting : World -> string -> list yvalue -> option error :=
  fun _ _ _ => None.

Definition refusing (stmt : string) : World -> string -> list yvalue -> option error :=
  fun _ sql _ => if String.eqb sql stmt then Some (errDriver "refused") else None.

End Sample.

Module SampleFiles.

Definition noSuchFile (op path : string) : fsError :=
  PathError op path "no such file or directory".

(** A directory with two fixture files, a file with another extension and
    two directories, and a directory whose fixture cannot be read. *)
Definition readDir (folder : string) : list FileInfo + fsError :=
  if String.eqb folder "fixtures" then
    inl [ {| Name := "archive"; IsDir := true |};
          {| Name := "comments.yaml"; IsDir := false |};
          {| Name := "old.yml"; IsDir := true |};
          {| Name := "posts.yml"; IsDir := false |};
          {| Name := "tags.yml"; IsDir := false |} ]
  else if String.eqb folder "locked" then
    inl [ {| Name := "posts.yml"; IsDir := false |};
          {| Name := "secret.yml"; IsDir := false |};
          {| Name := "tags.yml"; IsDir := false |} ]
  else inr (noSuchFile "open" folder).

Definition readFile (name : string) : string + fsError :=
  if String.eqb name "fixtures/posts.yml" then inl Sample.postsYml
  else if String.eqb name "fixtures/tags.yml" then inl Sample.tagsYml
  else if String.eqb name "locked/posts.yml" then inl Sample.postsYml
  else if String.eqb name "locked/tags.yml" then inl Sample.tagsYml
  else if String.eqb name "locked/secret.yml"
       then inr (PathError "open" name "permission denied")
  else inr (noSuchFile "open" name).

(** [path.Join] on two clean elements. *)
Definition join (dir name : string) : string := dir ++ "/" ++ name.

End SampleFiles.

Module SampleEngine.

(** A second call's decodes of the sample documents: the same content, with
    the entries of every mapping in another order; and two more documents,
    a mapping of two rows and, decoded, a mapping with a NaN key. *)
Definition usersYml : string := "{bob: {id: 1, name: Bob}, eve: {id: 2, name: Eve}}".
Definition nanYml : string := "{.nan: {id: 1}}".

Definition bob : record := [(YString "id", YInt 1); (YString "name", YString "Bob")].
Definition eve : record := [(YString "id", YInt 2); (YString "name", YString "Eve")].

Definition nan : Z := 9221120237041090561.

Definition firstDecode (doc : string) : yvalue + error :=
  if String.eqb doc usersYml
  then inl (YMap [(YString "bob", YMap bob); (YString "eve", YMap eve)])
  else if String.eqb doc nanYml
  then inl (YMap [(YFloat nan, YMap [(YString "id", YInt 1)])])
  else Sample.yaml doc.

Definition secondDecode (doc : string) : yvalue + error :=
  if String.eqb doc usersYml
  then inl (YMap [(YString "eve", YMap (rev eve)); (YString "bob", YMap (rev bob))])
  else if String.eqb doc Sample.postsYml
  then inl (YSlice [YMap (rev Sample.post1); YMap Sample.post2])
  else Sample.yaml doc.

Definition users := Sample.file "users.yml" usersYml.
Definition notANumber := Sample.file "nan.yml" nanYml.

(** An engine that reads the statements of the backtick dialect: the table
    is what stands between the verb and the column list, the columns are the
    comma-separated names of the list, and the row stored pairs each column
    with the argument at its position, the columns in alphabetical order. *)
Definition afterPrefix (p s : string) : option string :=
  if prefix p s then Some (dropBytes (String.length p) s) else None.

Fixpoint splitComma (s : string) (current : string) : list string :=
  match s with
  | EmptyString => [current]
  | String c s' =>
      if Ascii.eqb c "," then current :: splitComma s' EmptyString
      else if Ascii.eqb c " " then splitComma s' current
      else splitComma s' (current ++ String c EmptyString)
  end.

Fixpoint place (cell : string * yvalue) (row : list (string * yvalue))
  : list (string * yvalue) :=
  match row with
  | [] => [cell]
  | other :: rest =>
      if String.leb (fst cell) (fst other) then cell :: row
      else other :: place cell rest
  end.

Definition byColumn (cells : list (string * yvalue)) : list (string * yvalue) :=
  fold_right place [] cells.

Definition readInsert (sql : string) (args : list yvalue)
  : option (string * list (string * yvalue)) :=
  match afterPrefix "INSERT INTO " sql with
  | None => None
  | Some rest =>
      match index 0 " (" rest with
      | None => None
      | Some n =>
          let columnsOn := dropBytes (n + 2) rest in
          match index 0 ")" columnsOn with
          | None => None
          | Some m =>
              Some (substring 0 n rest,
                    byColumn (combine (splitComma (substring 0 m columnsOn) EmptyString) args))
          end
      end
  end.

Definition backticks : Engine :=
  {| Row := list (string * yvalue);
     deleteOf := afterPrefix "DELETE FROM ";
     insertOf := readInsert |}.

End SampleEngine.

Section Engine.

(** The collaborators whose code is outside [testfixtures.go].
    [yaml_Unmarshal] is what the decodes of one call of [Load] return, the
    order in which that call ranges over each map included; another call
    decodes afresh and has another such function (see [sameDocument]). *)
Variable yaml_Unmarshal : string -> yvalue + error.
Variable driver : World -> string -> list yvalue -> option error.
Variables isDateTime isDate isTime : yvalue -> bool.
Variable dbnameRegexp_MatchString : string -> bool.
Variable ioutil_ReadDir : string -> list FileInfo + fsError.
Variable ioutil_ReadFile : string -> string + fsError.
Variable path_Join : string -> string -> string.

(** [tx.Exec(sql, args...)]: the driver decides, from all that happened on
    the connection so far, whether the statement fails; it stands for all of
    [tx.Exec], the conversion of the arguments by [database/sql] and the
    answer of the engine. *)
Definition tx_Exec (tx : sqlTx) (sql : string) (args : list yvalue) : M (option error) :=
  fun w => let r := driver w sql args in (Done r, (w ++ [EvExec sql args r])%list).

Definition delete (f : fixtureFile) (tx : sqlTx) (h : Helper) : M (option error) :=
  tx_Exec tx ("DELETE FROM " ++ quoteKeyword h (fileNameWithoutExtension f)) [].

(** The local variables of [buildInsertSQL] that its loop updates. *)
Record buildState : Type := {
  sqlColumns : string;
  sqlValues : string;
  i : Z;
  values : list yvalue
}.

(** The text the [switch h.paramType()] appends to [sqlValues]. *)
Definition placeholder (h : Helper) (i : Z) (value : yvalue) : string :=
  match paramType h with
  | paramTypeDollar => "$" ++ fmtInt i
  | paramTypeQuestion => "?"
  | paramTypeColon =>
      if isDateTime value then "to_date(:" ++ fmtInt i ++ ", 'YYYY-MM-DD HH24:MI:SS')"
      else if isDate value then "to_date(:" ++ fmtInt i ++ ", 'YYYY-MM-DD')"
      else if isTime value then "to_date(:" ++ fmtInt i ++ ", 'HH24:MI:SS')"
      else ":" ++ fmtInt i
  | paramTypeOther _ => EmptyString
  end.

(** The [for key, value := range record] loop; [Some err] is the early
    [return] with the state reached. *)
Fixpoint buildLoop (h : Helper) (entries : record) (st : buildState)
  : buildState * option error :=
  match entries with
  | [] => (st, None)
  | (key, value) :: rest =>
      let st1 :=
        if (0 <? String.length (sqlColumns st))%nat
        then {| sqlColumns := sqlColumns st ++ ", ";
                sqlValues := sqlValues st ++ ", ";
                i := i st; values := values st |}
        else st in
      match key with
      | YString keyStr =>
          buildLoop h rest
            {| sqlColumns := sqlColumns st1 ++ quoteKeyword h keyStr;
               sqlValues := sqlValues st1 ++ placeholder h (i st1) value;
               i := i st1 + 1;
               values := (values st1 ++ [value])%list |}
      | _ => (st1, Some ErrKeyIsNotString)
      end
  end.

Definition buildInsertSQL (f : fixtureFile) (h : Helper) (rec : record)
  : string * list yvalue * option error :=
  let '(st, err) :=
    buildLoop h rec {| sqlColumns := EmptyString; sqlValues := EmptyString;
                     i := 1; values := [] |} in
  match err with
  | Some e => (EmptyString, values st, Some e)
  | None =>
      ("INSERT INTO " ++ quoteKeyword h (fileNameWithoutExtension f)
         ++ " (" ++ sqlColumns st ++ ") VALUES (" ++ sqlValues st ++ ")",
       values st, None)
  end.

(** The body of the two loops of [insert], for one element. *)
Definition insertRow (f : fixtureFile) (tx : sqlTx) (h : Helper) (row : yvalue)
  : M (option error) :=
  match row with
  | YMap rec =>
      let '(sqlStr, vals, err) := buildInsertSQL f h rec in
      match err with
      | Some e => ret (Some e)
      | None => tx_Exec tx sqlStr vals
      end
  | _ => ret (Some ErrWrongCastNotAMap)
  end.

Fixpoint insertRows (f : fixtureFile) (tx : sqlTx) (h : Helper) (rows : list yvalue)
  : M (option error) :=
  match rows with
  | [] => ret None
  | row :: rest =>
      err <- insertRow f tx h row ;;
      match err with
      | Some e => ret (Some e)
      | None => insertRows f tx h rest
      end
  end.

(** The loop over [v.MapKeys()]: each key is looked up again with
    [v.MapIndex(key)].  The keys of a map are pairwise different, so the
    lookup gives the value of the entry, except for a NaN key, which equals no
    key: [MapIndex] gives the zero [Value], on which [Interface] panics. *)
Fixpoint insertEntries (f : fixtureFile) (tx : sqlTx) (h : Helper)
         (entries : list (yvalue * yvalue)) : M (option error) :=
  match entries with
  | [] => ret None
  | (key, row) :: rest =>
      if isNaNKey key
      then panic "reflect: call of reflect.Value.Interface on zero Value"
      else
        err <- insertRow f tx h row ;;
        match err with
        | Some e => ret (Some e)
        | None => insertEntries f tx h rest
        end
  end.

(** [insert]: [reflect.TypeOf(nil)] is the nil [Type], whose [Kind] method
    cannot be called. *)
Definition insert (f : fixtureFile) (tx : sqlTx) (h : Helper) : M (option error) :=
  match yaml_Unmarshal (content f) with
  | inr e => ret (Some e)
  | inl rows =>
      match rows with
      | YNil => panic "runtime error: invalid memory address or nil pointer dereference"
      | YSlice items => insertRows f tx h items
      | YMap entries => insertEntries f tx h entries
      | _ => ret (Some ErrFileIsNotSliceOrMap)
      end
  end.

(** One turn of the loop of [Load]. *)
Definition loadFile (tx : sqlTx) (h : Helper) (file : fixtureFile) : M (option error) :=
  err <- delete file tx h ;;
  match err with
  | Some e => ret (Some e)
  | None =>
      whileInsertOnTable h tx (fileNameWithoutExtension file)
        (fun _ => insert file tx h)
  end.

Fixpoint loadFiles (tx : sqlTx) (h : Helper) (files : list fixtureFile)
  : M (option error) :=
  match files with
  | [] => ret None
  | file :: rest =>
      err <- loadFile tx h file ;;
      match err with
      | Some e => ret (Some e)
      | None => loadFiles tx h rest
      end
  end.

(** The guard at the head of [Load]; [Some errNotTestDatabase] is its
    [return]. *)
Definition checkDatabaseName (skipDatabaseNameCheck : bool) (c : Context)
  : M (option error) :=
  if negb skipDatabaseNameCheck then
    name <- databaseName (helper c) (db c) ;;
    if negb (dbnameRegexp_MatchString name) then ret (Some errNotTestDatabase)
    else ret None
  else ret None.

Definition Load (skipDatabaseNameCheck : bool) (c : Context) : M (option error) :=
  guard <- checkDatabaseName skipDatabaseNameCheck c ;;
  match guard with
  | Some e => ret (Some e)
  | None =>
      disableReferentialIntegrity (helper c) (db c)
        (fun tx => loadFiles tx (helper c) (fixturesFiles c))
  end.

(** ** What the specification describes, in its own terms *)

(** The placeholders of the columns of a record, numbered from [i]. *)
Fixpoint placeholdersFrom (h : Helper) (i : Z) (cols : list (string * yvalue))
  : list string :=
  match cols with
  | [] => []
  | (_, value) :: rest => placeholder h i value :: placeholdersFrom h (i + 1) rest
  end.

(** [INSERT INTO <quoted-table> (<columns>) VALUES (<placeholders>)]. *)
Definition insertText (quotedTable : string) (columns placeholders : list string)
  : string :=
  "INSERT INTO " ++ quotedTable ++ " (" ++ String.concat ", " columns
    ++ ") VALUES (" ++ String.concat ", " placeholders ++ ")".

(** The elements of a list, each after a separator. *)
Fixpoint joinMore (l : list string) : string :=
  match l with
  | [] => EmptyString
  | x :: rest => ", " ++ x ++ joinMore rest
  end.

(** The rows of a fixture file, in the order [insert] visits them. *)
Definition recordsOf (f : fixtureFile) : list yvalue :=
  match yaml_Unmarshal (content f) with
  | inl (YSlice items) => items
  | inl (YMap entries) => map snd entries
  | _ => []
  end.

(** The successful INSERT of one row. *)
Definition insertEventOf (f : fixtureFile) (h : Helper) (row : yvalue) : event :=
  match row with
  | YMap rec =>
      let '(sqlStr, vals, _) := buildInsertSQL f h rec in EvExec sqlStr vals None
  | _ => EvExec EmptyString [] None
  end.

(** A row that compiles to an INSERT. *)
Definition compiles (f : fixtureFile) (h : Helper) (row : yvalue) : Prop :=
  exists rec, row = YMap rec /\ snd (buildInsertSQL f h rec) = None.

(** What a successful load of one file leaves in the log: the wipe, then
    the inserts inside the per-table hook. *)
Definition fileTrace (h : Helper) (f : fixtureFile) : list event :=
  ([EvExec ("DELETE FROM " ++ quoteKeyword h (fileNameWithoutExtension f)) [] None;
    EvTableBegin (fileNameWithoutExtension f)]
     ++ map (insertEventOf f h) (recordsOf f)
     ++ [EvTableEnd (fileNameWithoutExtension f)])%list.

(** What a successful [Load] leaves in the log. *)
Definition loadTrace (skipDatabaseNameCheck : bool) (name : string) (c : Context)
  : list event :=
  ((if skipDatabaseNameCheck then [] else [EvDatabaseName name])
     ++ [EvIntegrityOff]
     ++ flat_map (fileTrace (helper c)) (fixturesFiles c)
     ++ [EvIntegrityOn])%list.

(** ** Discovery of the fixture files *)

(** The test of the loop of [fixturesFromFolder]. *)
Definition isFixture (fileinfo : FileInfo) : bool :=
  negb (IsDir fileinfo) && String.eqb (filepath_Ext (Name fileinfo)) ".yml".

(** The loop of [fixturesFromFolder]; [inr err] is its [return nil, err]. *)
Fixpoint folderLoop (folderName : string) (fileinfos : list FileInfo)
         (files : list fixtureFile) : list fixtureFile + fsError :=
  match fileinfos with
  | [] => inl files
  | fileinfo :: rest =>
      if isFixture fileinfo then
        let p := path_Join folderName (Name fileinfo) in
        match ioutil_ReadFile p with
        | inr err => inr err
        | inl bytes =>
            folderLoop folderName rest
              (files ++ [{| path := p; fileName := Name fileinfo; content := bytes |}])%list
        end
      else folderLoop folderName rest files
  end.

Definition fixturesFromFolder (folderName : string) : list fixtureFile + fsError :=
  match ioutil_ReadDir folderName with
  | inr err => inr err
  | inl fileinfos => folderLoop folderName fileinfos []
  end.

(** The loop of [fixturesFromFiles]. *)
Fixpoint filesLoop (fileNames : list string) (fixtureFiles : list fixtureFile)
  : list fixtureFile + fsError :=
  match fileNames with
  | [] => inl fixtureFiles
  | f :: rest =>
      match ioutil_ReadFile f with
      | inr err => inr err
      | inl bytes =>
          filesLoop rest
            (fixtureFiles ++ [{| path := f; fileName := filepath_Base f; content := bytes |}])%list
      end
  end.

Definition fixturesFromFiles (fileNames : list string) : list fixtureFile + fsError :=
  filesLoop fileNames [].

Definition NewFolder (d : sqlDB) (h : Helper) (folderName : string) : Context + fsError :=
  match fixturesFromFolder folderName with
  | inr err => inr err
  | inl fixtures => inl {| db := d; helper := h; fixturesFiles := fixtures |}
  end.

Definition NewFiles (d : sqlDB) (h : Helper) (fileNames : list string) : Context + fsError :=
  match fixturesFromFiles fileNames with
  | inr err => inr err
  | inl fixtures => inl {| db := d; helper := h; fixturesFiles := fixtures |}
  end.

(** ** Shapes of the statements in the log *)

Definition deletesFrom (q : string) (ev : event) : Prop :=
  exists res, ev = EvExec ("DELETE FROM " ++ q) [] res.

(** The INSERT that [buildInsertSQL] compiles from a row of the file, bound
    to the values of that row. *)
Definition insertOfRow (f : fixtureFile) (h : Helper) (ev : event) : Prop :=
  exists rec sqlStr vals res,
    In (YMap rec) (recordsOf f)
    /\ buildInsertSQL f h rec = (sqlStr, vals, None)
    /\ ev = EvExec sqlStr vals res.

Definition isMarker (ev : event) : Prop :=
  match ev with EvExec _ _ _ => False | _ => True end.

(** A file whose content decodes to a sequence or a mapping. *)
Definition isSliceOrMap (f : fixtureFile) : bool :=
  match yaml_Unmarshal (content f) with
  | inl (YSlice _) | inl (YMap _) => true
  | _ => false
  end.

(** A file whose content, if it decodes to a mapping, has no NaN key. *)
Definition nanFreeKeys (f : fixtureFile) : bool :=
  match yaml_Unmarshal (content f) with
  | inl (YMap entries) => forallb (fun e => negb (isNaNKey (fst e))) entries
  | _ => true
  end.

(** A row that is a mapping with string keys only. *)
Definition stringKeyed (row : yvalue) : Prop :=
  exists rec, row = YMap rec /\ forallb (fun kv => isStringKey (fst kv)) rec = true.

(** The database accepts every statement of the log [T] in the state in
    which it arrives, when [T] is run from [w]. *)
Definition accepts (w : World) (T : list event) : Prop :=
  forall T1 sql args res T2,
    T = (T1 ++ EvExec sql args res :: T2)%list ->
    driver (w ++ T1)%list sql args = None.

(** The INSERT statements of a file, in the order of its rows. *)
Definition insertsOf (h : Helper) (f : fixtureFile) : list event :=
  map (insertEventOf f h) (recordsOf f).

(** Two entries with the same key whose values the placeholder switch cannot
    tell apart. *)
Definition sameColumn (h : Helper) (kv kv' : yvalue * yvalue) : Prop :=
  fst kv = fst kv'
  /\ (paramType h = paramTypeColon ->
      isDateTime (snd kv) = isDateTime (snd kv')
      /\ isDate (snd kv) = isDate (snd kv')
      /\ isTime (snd kv) = isTime (snd kv')).

(** ** Strings *)

Lemma append_assoc (a b c : string) : (a ++ b) ++ c = a ++ b ++ c.
Proof. induction a as [|ch a IH]; simpl; [reflexivity | now rewrite IH]. Qed.

Lemma append_empty_r (a : string) : a ++ EmptyString = a.
Proof. induction a as [|ch a IH]; simpl; [reflexivity | now rewrite IH]. Qed.

Lemma nonempty_length (s : string) :
  s <> EmptyString -> (0 <? String.length s)%nat = true.
Proof. destruct s; [congruence | reflexivity]. Qed.

Lemma append_nonempty_l (a b : string) : a <> EmptyString -> a ++ b <> EmptyString.
Proof. destruct a; [congruence | discriminate]. Qed.

Lemma concat_joinMore (x : string) (l : list string) :
  String.concat ", " (x :: l) = x ++ joinMore l.
Proof.
  revert x; induction l as [|y l IH]; intros x.
  - simpl. now rewrite append_empty_r.
  - change (String.concat ", " (x :: y :: l))
      with (x ++ ", " ++ String.concat ", " (y :: l)).
    rewrite IH. reflexivity.
Qed.

(** ** The record compiler *)

Lemma buildLoop_more (h : Helper) :
  forall cols st,
    sqlColumns st <> EmptyString ->
    buildLoop h (stringRecord cols) st =
    ({| sqlColumns := sqlColumns st ++ joinMore (map (fun kv => quoteKeyword h (fst kv)) cols);
        sqlValues := sqlValues st ++ joinMore (placeholdersFrom h (i st) cols);
        i := i st + Z.of_nat (length cols);
        values := (values st ++ map snd cols)%list |}, None).
Proof.
  intros cols; induction cols as [|[k v] rest IH]; intros st Hne.
  - simpl. rewrite !append_empty_r, Z.add_0_r, app_nil_r. now destruct st.
  - cbn [stringRecord map buildLoop fst snd].
    rewrite (nonempty_length _ Hne).
    fold (stringRecord rest). rewrite IH.
    + cbn [sqlColumns sqlValues i values placeholdersFrom joinMore map fst snd length].
      rewrite !append_assoc, <- app_assoc.
      f_equal. f_equal. lia.
    + cbn [sqlColumns]. apply append_nonempty_l, append_nonempty_l, Hne.
Qed.

Lemma buildLoop_stringRecord (h : Helper) (cols : list (string * yvalue)) :
  (forall k v, In (k, v) cols -> quoteKeyword h k <> EmptyString) ->
  buildLoop h (stringRecord cols)
    {| sqlColumns := EmptyString; sqlValues := EmptyString; i := 1; values := [] |} =
  ({| sqlColumns := String.concat ", " (map (fun kv => quoteKeyword h (fst kv)) cols);
      sqlValues := String.concat ", " (placeholdersFrom h 1 cols);
      i := 1 + Z.of_nat (length cols);
      values := map snd cols |}, None).
Proof.
  intros Hq. destruct cols as [|[k v] rest]; [reflexivity|].
  cbn [stringRecord map buildLoop fst snd sqlColumns String.length Nat.ltb Nat.leb].
  fold (stringRecord rest). rewrite (buildLoop_more h).
  - cbn [sqlColumns sqlValues i values placeholdersFrom map fst snd length].
    rewrite !concat_joinMore. cbn [append app].
    f_equal. f_equal. lia.
  - cbn [sqlColumns append]. apply (Hq k v). now left.
Qed.

Lemma buildInsertSQL_stringRecord (f : fixtureFile) (h : Helper)
      (cols : list (string * yvalue)) :
  (forall k v, In (k, v) cols -> quoteKeyword h k <> EmptyString) ->
  buildInsertSQL f h (stringRecord cols) =
  (insertText (quoteKeyword h (fileNameWithoutExtension f))
     (map (fun kv => quoteKeyword h (fst kv)) cols) (placeholdersFrom h 1 cols),
   map snd cols, None).
Proof.
  intros Hq. unfold buildInsertSQL. rewrite (buildLoop_stringRecord h cols Hq).
  reflexivity.
Qed.

Lemma placeholdersFrom_length (h : Helper) (cols : list (string * yvalue)) (i0 : Z) :
  length (placeholdersFrom h i0 cols) = length cols.
Proof.
  revert i0; induction cols as [|[k v] rest IH]; intros i0; simpl;
    [reflexivity | now rewrite IH].
Qed.

Lemma placeholdersFrom_nth (h : Helper) (cols : list (string * yvalue)) :
  forall (i0 : Z) (n : nat) k v,
    nth_error cols n = Some (k, v) ->
    nth_error (placeholdersFrom h i0 cols) n = Some (placeholder h (i0 + Z.of_nat n) v).
Proof.
  induction cols as [|[k0 v0] rest IH]; intros i0 n k v Hn.
  - destruct n; discriminate.
  - destruct n as [|n].
    + simpl in Hn. injection Hn as -> ->. simpl. now rewrite Z.add_0_r.
    + simpl in Hn. cbn [placeholdersFrom nth_error].
      rewrite (IH (i0 + 1)%Z n k v Hn). f_equal. f_equal. lia.
Qed.

(** ** Running the monad *)

Lemma bind_Done {A B} (m : M A) (k : A -> M B) (w w1 : World) (a : A) :
  m w = (Done a, w1) -> bind m k w = k a w1.
Proof. intros E. unfold bind. now rewrite E. Qed.

Lemma bind_inv {A B} (m : M A) (k : A -> M B) (w w2 : World) (b : B) :
  bind m k w = (Done b, w2) ->
  exists a w1, m w = (Done a, w1) /\ k a w1 = (Done b, w2).
Proof.
  unfold bind. destruct (m w) as [[a|msg] w1]; intros E.
  - now exists a, w1.
  - discriminate.
Qed.

Lemma ret_inv {A} (a b : A) (w w1 : World) :
  ret a w = (Done b, w1) -> a = b /\ w = w1.
Proof. unfold ret. intros E. injection E as -> ->. now split. Qed.

Lemma tx_Exec_inv (tx : sqlTx) (sql : string) (args : list yvalue)
      (w w1 : World) (r : option error) :
  tx_Exec tx sql args w = (Done r, w1) ->
  w1 = (w ++ [EvExec sql args r])%list.
Proof. unfold tx_Exec. intros E. injection E as <- <-. reflexivity. Qed.

(** ** The insert loop *)

Lemma insertRow_success f tx h row w w1 :
  insertRow f tx h row w = (Done None, w1) ->
  compiles f h row /\ w1 = (w ++ [insertEventOf f h row])%list.
Proof.
  destruct row as [| | | | |items|rec]; simpl; try discriminate.
  unfold compiles.
  destruct (buildInsertSQL f h rec) as [[sqlStr vals] [e|]] eqn:B; [discriminate|].
  intros E. apply tx_Exec_inv in E. split; [|exact E].
  exists rec. split; [reflexivity | now rewrite B].
Qed.

Lemma insertRow_error f tx h row w w1 e :
  insertRow f tx h row w = (Done (Some e), w1) ->
  w1 = w \/ exists sql vals, w1 = (w ++ [EvExec sql vals (Some e)])%list.
Proof.
  destruct row as [| | | | |items|rec]; simpl;
    try (intros E; apply ret_inv in E; now left).
  destruct (buildInsertSQL f h rec) as [[sqlStr vals] [e'|]] eqn:B.
  - intros E; apply ret_inv in E; now left.
  - intros E. apply tx_Exec_inv in E. right. now exists sqlStr, vals.
Qed.

Lemma insertRows_app f tx h rs more w w1 :
  insertRows f tx h rs w = (Done None, w1) ->
  insertRows f tx h (rs ++ more) w = insertRows f tx h more w1.
Proof.
  revert w; induction rs as [|r rs IH]; intros w E.
  - apply ret_inv in E as [_ ->]. reflexivity.
  - cbn [insertRows app] in *. apply bind_inv in E as (err & wm & Er & E).
    rewrite (bind_Done _ _ _ _ _ Er). destruct err as [e|].
    + apply ret_inv in E as [E _]. discriminate.
    + now apply IH.
Qed.

Lemma insertRows_success f tx h rows :
  forall w w1,
    insertRows f tx h rows w = (Done None, w1) ->
    Forall (compiles f h) rows /\ w1 = (w ++ map (insertEventOf f h) rows)%list.
Proof.
  induction rows as [|r rows IH]; intros w w1 E.
  - apply ret_inv in E as [_ <-]. split; [constructor | now rewrite app_nil_r].
  - cbn [insertRows] in E. apply bind_inv in E as (err & wm & Er & E).
    destruct err as [e|].
    + apply ret_inv in E as [E _]. discriminate.
    + apply insertRow_success in Er as [Hc ->].
      apply IH in E as [Hall ->]. split; [now constructor|].
      cbn [map]. now rewrite <- app_assoc.
Qed.

Lemma insertRows_error f tx h rows :
  forall w w1 e,
    insertRows f tx h rows w = (Done (Some e), w1) ->
    exists rs r more failing,
      rows = (rs ++ r :: more)%list
      /\ w1 = (w ++ map (insertEventOf f h) rs ++ failing)%list
      /\ (failing = [] \/ exists sql vals, failing = [EvExec sql vals (Some e)]).
Proof.
  induction rows as [|r rows IH]; intros w w1 e E.
  - apply ret_inv in E as [E _]. discriminate.
  - cbn [insertRows] in E. apply bind_inv in E as (err & wm & Er & E).
    destruct err as [e'|].
    + apply ret_inv in E as [E <-]. injection E as ->.
      exists [], r, rows.
      destruct (insertRow_error _ _ _ _ _ _ _ Er) as [->|(sql & vals & ->)].
      * exists []. repeat split; [now rewrite app_nil_r | now left].
      * exists [EvExec sql vals (Some e)]. repeat split. right. now exists sql, vals.
    + apply insertRow_success in Er as [_ ->].
      apply IH in E as (rs & r' & more & failing & -> & -> & Hf).
      exists (r :: rs), r', more, failing. repeat split; [|exact Hf].
      cbn [map]. now rewrite <- !app_assoc.
Qed.

Lemma insertEntries_rows f tx h entries :
  forall w r w1,
    insertEntries f tx h entries w = (Done r, w1) ->
    insertRows f tx h (map snd entries) w = (Done r, w1).
Proof.
  induction entries as [|[key row] entries IH]; intros w r w1 E; [exact E|].
  cbn [insertEntries] in E. destruct (isNaNKey key); [discriminate|].
  cbn [map snd insertRows]. unfold bind in *.
  destruct (insertRow f tx h row w) as [[[e|]|msg] wm]; try exact E. now apply IH.
Qed.

Lemma insert_recordsOf f tx h w r w1 :
  insert f tx h w = (Done r, w1) ->
  insert f tx h w = insertRows f tx h (recordsOf f) w
  \/ (recordsOf f = [] /\ w1 = w /\ r <> None).
Proof.
  unfold insert, recordsOf.
  destruct (yaml_Unmarshal (content f)) as [[| | | | |items|entries]|e];
    try (now left); try discriminate;
    try (intros E; apply ret_inv in E as [<- <-]; right; repeat split; discriminate).
  intros E. left. rewrite E. symmetry. now apply insertEntries_rows.
Qed.

Lemma insert_success f tx h w w1 :
  insert f tx h w = (Done None, w1) ->
  Forall (compiles f h) (recordsOf f)
  /\ w1 = (w ++ map (insertEventOf f h) (recordsOf f))%list.
Proof.
  intros E. destruct (insert_recordsOf _ _ _ _ _ _ E) as [R|(_ & _ & N)].
  - rewrite R in E. now apply insertRows_success in E.
  - congruence.
Qed.

Lemma insert_error f tx h w w1 e :
  insert f tx h w = (Done (Some e), w1) ->
  exists rs more failing,
    recordsOf f = (rs ++ more)%list
    /\ (more = [] -> recordsOf f = [])
    /\ w1 = (w ++ map (insertEventOf f h) rs ++ failing)%list
    /\ (failing = [] \/ exists sql vals, failing = [EvExec sql vals (Some e)]).
Proof.
  intros E. destruct (insert_recordsOf _ _ _ _ _ _ E) as [R|(R & -> & _)].
  - rewrite R in E. apply insertRows_error in E as (rs & r & more & failing & Hr & -> & Hf).
    exists rs, (r :: more), failing. repeat split; [exact Hr | discriminate | exact Hf].
  - exists [], [], []. rewrite R. repeat split; [now rewrite app_nil_r | now left].
Qed.

(** ** The load loop, under the helpers' contract *)

Lemma hooked_insert name h tx f w r w1 :
  bracketing name h ->
  whileInsertOnTable h tx (fileNameWithoutExtension f) (fun _ => insert f tx h) w
    = (Done r, w1) ->
  exists wi,
    insert f tx h (w ++ [EvTableBegin (fileNameWithoutExtension f)])%list = (Done r, wi)
    /\ w1 = (wi ++ [EvTableEnd (fileNameWithoutExtension f)])%list.
Proof.
  intros (_ & _ & Hw). rewrite Hw. unfold bind, emit, ret.
  destruct (insert f tx h _) as [[r'|msg] wi]; [|discriminate].
  intros E. injection E as <- <-. now exists wi.
Qed.

Lemma loadFile_success name h tx f w w1 :
  bracketing name h ->
  loadFile tx h f w = (Done None, w1) ->
  Forall (compiles f h) (recordsOf f) /\ w1 = (w ++ fileTrace h f)%list.
Proof.
  intros Hb E. unfold loadFile in E.
  apply bind_inv in E as (err & wd & Ed & E). apply (tx_Exec_inv tx) in Ed as ->.
  destruct err as [e|]; [apply ret_inv in E as [E _]; discriminate|].
  destruct (hooked_insert _ _ _ _ _ _ _ Hb E) as (wi & Ei & ->).
  apply insert_success in Ei as [Hall ->]. split; [exact Hall|].
  unfold fileTrace. cbn [app]. now rewrite <- !app_assoc.
Qed.

Lemma loadFile_error name h tx f w w1 e :
  bracketing name h ->
  loadFile tx h f w = (Done (Some e), w1) ->
  w1 = (w ++ [EvExec ("DELETE FROM " ++ quoteKeyword h (fileNameWithoutExtension f))
                [] (Some e)])%list
  \/ exists rs more failing,
      recordsOf f = (rs ++ more)%list
      /\ (more = [] -> recordsOf f = [])
      /\ (failing = [] \/ exists sql vals, failing = [EvExec sql vals (Some e)])
      /\ w1 = (w ++ [EvExec ("DELETE FROM " ++ quoteKeyword h (fileNameWithoutExtension f))
                       [] None;
                     EvTableBegin (fileNameWithoutExtension f)]
                 ++ map (insertEventOf f h) rs ++ failing
                 ++ [EvTableEnd (fileNameWithoutExtension f)])%list.
Proof.
  intros Hb E. unfold loadFile in E.
  apply bind_inv in E as (err & wd & Ed & E). apply (tx_Exec_inv tx) in Ed as ->.
  destruct err as [e'|].
  - apply ret_inv in E as [E <-]. injection E as ->. now left.
  - right. destruct (hooked_insert _ _ _ _ _ _ _ Hb E) as (wi & Ei & ->).
    apply insert_error in Ei as (rs & more & failing & Hr & Hm & -> & Hf).
    exists rs, more, failing. repeat split; try assumption.
    cbn [app]. now rewrite <- !app_assoc.
Qed.

Lemma loadFiles_app tx h pre post w w1 :
  loadFiles tx h pre w = (Done None, w1) ->
  loadFiles tx h (pre ++ post) w = loadFiles tx h post w1.
Proof.
  revert w; induction pre as [|f pre IH]; intros w E.
  - apply ret_inv in E as [_ ->]. reflexivity.
  - cbn [loadFiles app] in *. apply bind_inv in E as (err & wm & Ef & E).
    rewrite (bind_Done _ _ _ _ _ Ef). destruct err as [e|].
    + apply ret_inv in E as [E _]. discriminate.
    + now apply IH.
Qed.

Lemma loadFiles_success name h tx files :
  bracketing name h ->
  forall w w1,
    loadFiles tx h files w = (Done None, w1) ->
    Forall (fun f => Forall (compiles f h) (recordsOf f)) files
    /\ w1 = (w ++ flat_map (fileTrace h) files)%list.
Proof.
  intros Hb. induction files as [|f files IH]; intros w w1 E.
  - apply ret_inv in E as [_ <-]. split; [constructor | now rewrite app_nil_r].
  - cbn [loadFiles] in E. apply bind_inv in E as (err & wm & Ef & E).
    destruct err as [e|]; [apply ret_inv in E as [E _]; discriminate|].
    apply (loadFile_success name) in Ef as [Hf ->]; [|exact Hb].
    apply IH in E as [Hall ->]. split; [now constructor|].
    cbn [flat_map]. now rewrite <- !app_assoc.
Qed.

Lemma checkDatabaseName_passed name skip c w w0 :
  bracketing name (helper c) ->
  checkDatabaseName skip c w = (Done None, w0) ->
  w0 = (w ++ if skip then [] else [EvDatabaseName name])%list
  /\ (skip = false -> dbnameRegexp_MatchString name = true).
Proof.
  intros (Hn & _ & _). unfold checkDatabaseName. destruct skip; cbn [negb].
  - intros E. apply ret_inv in E as [_ <-]. now rewrite app_nil_r.
  - unfold bind. rewrite Hn.
    destruct (dbnameRegexp_MatchString name); cbn [negb]; intros E;
      apply ret_inv in E as [E <-]; [now split | discriminate].
Qed.

Lemma integrity_bracket name h d body w r w1 :
  bracketing name h ->
  disableReferentialIntegrity h d body w = (Done r, w1) ->
  exists wb,
    body (SqlTx d) (w ++ [EvIntegrityOff])%list = (Done r, wb)
    /\ w1 = (wb ++ [EvIntegrityOn])%list.
Proof.
  intros (_ & Hd & _). rewrite Hd. unfold bind, emit, ret.
  destruct (body (SqlTx d) _) as [[r'|msg] wb]; [|discriminate].
  intros E. injection E as <- <-. now exists wb.
Qed.

Lemma Load_success_trace name skip c w w1 :
  bracketing name (helper c) ->
  Load skip c w = (Done None, w1) ->
  w1 = (w ++ loadTrace skip name c)%list
  /\ (skip = false -> dbnameRegexp_MatchString name = true)
  /\ Forall (fun f => Forall (compiles f (helper c)) (recordsOf f)) (fixturesFiles c).
Proof.
  intros Hb E. unfold Load in E.
  apply bind_inv in E as (guard & w0 & Eg & E).
  destruct guard as [e|]; [apply ret_inv in E as [E _]; discriminate|].
  apply (checkDatabaseName_passed name) in Eg as [-> Hm]; [|exact Hb].
  destruct (integrity_bracket _ _ _ _ _ _ _ Hb E) as (wb & Eb & ->).
  apply (loadFiles_success name) in Eb as [Hall ->]; [|exact Hb].
  repeat split; [|exact Hm|exact Hall]. unfold loadTrace. now rewrite <- !app_assoc.
Qed.

(** ** The table store *)

Lemma loadTrace_wipes skip name c f :
  In f (fixturesFiles c) ->
  In (EvExec ("DELETE FROM " ++ quoteKeyword (helper c) (fileNameWithoutExtension f))
        [] None)
     (loadTrace skip name c).
Proof.
  intros Hin. unfold loadTrace. apply in_or_app. right.
  apply in_or_app. right. apply in_or_app. left.
  apply in_flat_map. exists f. split; [exact Hin|]. now left.
Qed.

(** ** Independence from the [databaseName] method *)

Lemma insert_withDatabaseName f tx h dn w :
  insert f tx (withDatabaseName h dn) w = insert f tx h w.
Proof.
  assert (HL : forall rec st, buildLoop (withDatabaseName h dn) rec st = buildLoop h rec st).
  { induction rec as [|[k v] rec IH]; intros st; [reflexivity|].
    cbn [buildLoop]. destruct k; try reflexivity. apply IH. }
  assert (HR : forall rows w', insertRows f tx (withDatabaseName h dn) rows w'
                               = insertRows f tx h rows w').
  { induction rows as [|r rows IH]; intros w'; [reflexivity|].
    cbn [insertRows]. unfold bind.
    assert (E : insertRow f tx (withDatabaseName h dn) r w' = insertRow f tx h r w').
    { destruct r; try reflexivity. unfold insertRow, buildInsertSQL. now rewrite HL. }
    rewrite E. destruct (insertRow f tx h r w') as [[[e|]|msg] wm]; try reflexivity.
    apply IH. }
  assert (HE : forall entries w', insertEntries f tx (withDatabaseName h dn) entries w'
                                  = insertEntries f tx h entries w').
  { induction entries as [|[key r] entries IH]; intros w'; [reflexivity|].
    cbn [insertEntries]. destruct (isNaNKey key); [reflexivity|]. unfold bind.
    assert (E : insertRow f tx (withDatabaseName h dn) r w' = insertRow f tx h r w').
    { destruct r; try reflexivity. unfold insertRow, buildInsertSQL. now rewrite HL. }
    rewrite E. destruct (insertRow f tx h r w') as [[[e|]|msg] wm]; try reflexivity.
    apply IH. }
  unfold insert. destruct (yaml_Unmarshal (content f)) as [[| | | | |items|entries]|e];
    try reflexivity; [apply HR | apply HE].
Qed.

Lemma loadFiles_withDatabaseName tx h dn files :
  loadFiles tx (withDatabaseName h dn) files = loadFiles tx h files.
Proof.
  induction files as [|f files IH]; [reflexivity|].
  cbn [loadFiles]. rewrite IH. f_equal.
  unfold loadFile. cbn [whileInsertOnTable quoteKeyword withDatabaseName delete].
  f_equal. apply functional_extensionality. intros [e|]; [reflexivity|].
  f_equal. apply functional_extensionality. intros _.
  apply functional_extensionality. intros w. apply insert_withDatabaseName.
Qed.

(** ** The claims *)

(** C1. A successful [Load] leaves in the log, in this order: the
    database-name check (made unless the process-wide skip flag is set, and
    then passed), the opening of the one referential-integrity bracket, for
    each fixture file in the order of the set its [DELETE FROM] of the
    quoted table followed, inside the per-table hook, by one successful
    INSERT per record of the file, and the closing of the bracket.  Every
    row of every file compiled to an INSERT. *)
Theorem Load_runs_in_order name skip c w w1 :
  bracketing name (helper c) ->
  Load skip c w = (Done None, w1) ->
  w1 = (w ++ (if skip then [] else [EvDatabaseName name])
          ++ [EvIntegrityOff]
          ++ flat_map
               (fun f =>
                  [EvExec ("DELETE FROM "
                             ++ quoteKeyword (helper c) (fileNameWithoutExtension f))
                     [] None;
                   EvTableBegin (fileNameWithoutExtension f)]
                    ++ map (insertEventOf f (helper c)) (recordsOf f)
                    ++ [EvTableEnd (fileNameWithoutExtension f)])
               (fixturesFiles c)
          ++ [EvIntegrityOn])%list
  /\ (skip = false -> dbnameRegexp_MatchString name = true)
  /\ Forall (fun f => Forall (compiles f (helper c)) (recordsOf f)) (fixturesFiles c).
Proof.
  intros Hb E. exact (Load_success_trace name skip c w w1 Hb E).
Qed.

(** C2. When the files before [f] load and [f] fails with [e] (its delete,
    or the insert of one of its records), [Load] returns [e]; after the
    point of failure the log holds only the closing of the hooks: nothing
    is executed for the later files [post], and of [f] only the records
    [rs] before the failing one were inserted, followed by at most the one
    statement that failed. *)
Theorem Load_stops_at_first_error name skip h d pre f post w w0 w1 w2 e :
  bracketing name h ->
  checkDatabaseName skip
    {| db := d; helper := h; fixturesFiles := (pre ++ f :: post)%list |} w
    = (Done None, w0) ->
  loadFiles (SqlTx d) h pre (w0 ++ [EvIntegrityOff])%list = (Done None, w1) ->
  loadFile (SqlTx d) h f w1 = (Done (Some e), w2) ->
  Load skip {| db := d; helper := h; fixturesFiles := (pre ++ f :: post)%list |} w
    = (Done (Some e), (w2 ++ [EvIntegrityOn])%list)
  /\ (w2 = (w1 ++ [EvExec ("DELETE FROM "
                             ++ quoteKeyword h (fileNameWithoutExtension f))
                     [] (Some e)])%list
      \/ exists rs more failing,
          recordsOf f = (rs ++ more)%list
          /\ (more = [] -> recordsOf f = [])
          /\ (failing = [] \/ exists sql vals, failing = [EvExec sql vals (Some e)])
          /\ w2 = (w1 ++ [EvExec ("DELETE FROM "
                                    ++ quoteKeyword h (fileNameWithoutExtension f))
                            [] None;
                          EvTableBegin (fileNameWithoutExtension f)]
                      ++ map (insertEventOf f h) rs ++ failing
                      ++ [EvTableEnd (fileNameWithoutExtension f)])%list).
Proof.
  intros Hb Eg Epre Ef. split.
  - unfold Load. rewrite (bind_Done _ _ _ _ _ Eg). cbn [helper db fixturesFiles].
    destruct Hb as (_ & Hd & _). rewrite Hd. unfold bind at 1. unfold emit at 1.
    unfold bind at 1. rewrite (loadFiles_app _ _ _ _ _ _ Epre).
    cbn [loadFiles]. rewrite (bind_Done _ _ _ _ _ Ef). reflexivity.
  - exact (loadFile_error name h (SqlTx d) f w1 w2 e Hb Ef).
Qed.

(** C3. With the safety check enabled, when the name the helper resolves
    does not match the test-database pattern, [Load] returns
    [errNotTestDatabase] and the connection is left as the name resolution
    left it: the integrity bracket is never entered.  With the skip flag
    set the guard returns at once without touching the connection, and
    [Load] does not depend on the helper's [databaseName] method. *)
Theorem Load_checks_database_name c w :
  (forall name w1,
      databaseName (helper c) (db c) w = (Done name, w1) ->
      dbnameRegexp_MatchString name = false ->
      Load false c w = (Done (Some errNotTestDatabase), w1))
  /\ checkDatabaseName true c w = (Done None, w)
  /\ (forall dn,
         Load true {| db := db c; helper := withDatabaseName (helper c) dn;
                      fixturesFiles := fixturesFiles c |} w
         = Load true c w).
Proof.
  repeat split.
  - intros name w1 En Hm. unfold Load, checkDatabaseName. cbn [negb].
    unfold bind at 1. unfold bind at 1. rewrite En, Hm. reflexivity.
  - intros dn. unfold Load, checkDatabaseName. cbn [negb helper db fixturesFiles].
    unfold bind, ret. cbn [disableReferentialIntegrity withDatabaseName].
    f_equal. apply functional_extensionality. intros tx.
    apply loadFiles_withDatabaseName.
Qed.

(** C4. For a record whose keys are all strings and are quoted by the
    helper to non-empty text, [buildInsertSQL] returns no
    error and the text [INSERT INTO <quoted-table> (<columns>) VALUES
    (<placeholders>)], the lists joined with a comma and a space; the n-th
    column is the quoted n-th key, the n-th placeholder is the one of
    ordinal n+1 for the n-th value ([$i], [?], or [:i], bare or inside its
    conversion call), and the n-th returned value is the n-th value. *)
Theorem buildInsertSQL_position_for_position f h (cols : list (string * yvalue)) :
  (forall k v, In (k, v) cols -> quoteKeyword h k <> EmptyString) ->
  exists columns placeholders,
    buildInsertSQL f h (stringRecord cols)
    = ("INSERT INTO " ++ quoteKeyword h (fileNameWithoutExtension f)
         ++ " (" ++ String.concat ", " columns
         ++ ") VALUES (" ++ String.concat ", " placeholders ++ ")",
       map snd cols, None)
    /\ length columns = length cols
    /\ length placeholders = length cols
    /\ forall n k v,
        nth_error cols n = Some (k, v) ->
        nth_error columns n = Some (quoteKeyword h k)
        /\ nth_error (map snd cols) n = Some v
        /\ exists ph,
            nth_error placeholders n = Some ph
            /\ match paramType h with
               | paramTypeDollar => ph = "$" ++ fmtInt (Z.of_nat n + 1)
               | paramTypeQuestion => ph = "?"
               | paramTypeColon =>
                   exists opening closing,
                     ph = opening ++ ":" ++ fmtInt (Z.of_nat n + 1) ++ closing
               | paramTypeOther _ => ph = EmptyString
               end.
Proof.
  intros Hq.
  exists (map (fun kv => quoteKeyword h (fst kv)) cols), (placeholdersFrom h 1 cols).
  split; [exact (buildInsertSQL_stringRecord f h cols Hq)|].
  split; [apply length_map|]. split; [apply placeholdersFrom_length|].
  intros n k v Hn. split; [|split].
  - rewrite nth_error_map, Hn. reflexivity.
  - rewrite nth_error_map, Hn. reflexivity.
  - exists (placeholder h (1 + Z.of_nat n) v).
    split; [exact (placeholdersFrom_nth h cols 1 n k v Hn)|].
    replace (1 + Z.of_nat n)%Z with (Z.of_nat n + 1)%Z by lia.
    unfold placeholder. destruct (paramType h); try reflexivity.
    destruct (isDateTime v); [|destruct (isDate v); [|destruct (isTime v)]].
    + exists "to_date(", ", 'YYYY-MM-DD HH24:MI:SS')". reflexivity.
    + exists "to_date(", ", 'YYYY-MM-DD')". reflexivity.
    + exists "to_date(", ", 'HH24:MI:SS')". reflexivity.
    + exists EmptyString, EmptyString. cbn [append]. now rewrite append_empty_r.
Qed.

(** C7. Under the colon placeholder style the n-th placeholder of a record
    is [to_date(:i, 'YYYY-MM-DD HH24:MI:SS')] for a value recognised as a
    datetime, whatever the other two checks say; failing that,
    [to_date(:i, 'YYYY-MM-DD')] for a value recognised as a date; failing
    both, [to_date(:i, 'HH24:MI:SS')] for a value recognised as a time; and
    the bare [:i] for a value recognised as none of the three (i = n+1). *)
Theorem buildInsertSQL_colon_casts f h (cols : list (string * yvalue)) :
  paramType h = paramTypeColon ->
  (forall k v, In (k, v) cols -> quoteKeyword h k <> EmptyString) ->
  exists columns placeholders,
    buildInsertSQL f h (stringRecord cols)
    = ("INSERT INTO " ++ quoteKeyword h (fileNameWithoutExtension f)
         ++ " (" ++ String.concat ", " columns
         ++ ") VALUES (" ++ String.concat ", " placeholders ++ ")",
       map snd cols, None)
    /\ length placeholders = length cols
    /\ forall n k v,
        nth_error cols n = Some (k, v) ->
        exists ph,
          nth_error placeholders n = Some ph
          /\ (isDateTime v = true ->
              ph = "to_date(:" ++ fmtInt (Z.of_nat n + 1) ++ ", 'YYYY-MM-DD HH24:MI:SS')")
          /\ (isDateTime v = false -> isDate v = true ->
              ph = "to_date(:" ++ fmtInt (Z.of_nat n + 1) ++ ", 'YYYY-MM-DD')")
          /\ (isDateTime v = false -> isDate v = false -> isTime v = true ->
              ph = "to_date(:" ++ fmtInt (Z.of_nat n + 1) ++ ", 'HH24:MI:SS')")
          /\ (isDateTime v = false -> isDate v = false -> isTime v = false ->
              ph = ":" ++ fmtInt (Z.of_nat n + 1)).
Proof.
  intros Hc Hq.
  exists (map (fun kv => quoteKeyword h (fst kv)) cols), (placeholdersFrom h 1 cols).
  split; [exact (buildInsertSQL_stringRecord f h cols Hq)|].
  split; [apply placeholdersFrom_length|].
  intros n k v Hn. exists (placeholder h (1 + Z.of_nat n) v).
  split; [exact (placeholdersFrom_nth h cols 1 n k v Hn)|].
  replace (1 + Z.of_nat n)%Z with (Z.of_nat n + 1)%Z by lia.
  unfold placeholder. rewrite Hc.
  repeat split; intros; repeat match goal with H : _ = _ |- _ => rewrite H end;
    reflexivity.
Qed.

Lemma buildLoop_non_string_key h (rec : record) :
  existsb (fun kv => negb (isStringKey (fst kv))) rec = true ->
  forall st, snd (buildLoop h rec st) = Some ErrKeyIsNotString.
Proof.
  induction rec as [|[k v] rec IH]; [discriminate|].
  intros Hex st. cbn [existsb fst] in Hex. cbn [buildLoop].
  destruct k; try reflexivity.
  cbn [isStringKey negb orb] in Hex. now apply IH.
Qed.


Lemma insert_scalar_rejected f tx h w v :
  yaml_Unmarshal (content f) = inl v ->
  match v with YBool _ | YInt _ | YFloat _ | YString _ => True | _ => False end ->
  insert f tx h w = (Done (Some ErrFileIsNotSliceOrMap), w).
Proof.
  intros E Hv. unfold insert. rewrite E. destruct v; try reflexivity; destruct Hv.
Qed.

(** C9 (the code departs from it). For a file whose content decodes to
    [nil] (an empty document, or the null scalar) [insert] does not return
    [ErrFileIsNotSliceOrMap]: it panics on the nil [reflect.Type]. *)
Theorem insert_nil_panics f tx h w :
  yaml_Unmarshal (content f) = inl YNil ->
  insert f tx h w
  = (Panicked "runtime error: invalid memory address or nil pointer dereference", w).
Proof. intros E. unfold insert. now rewrite E. Qed.

(** C10. For the empty record [buildInsertSQL] returns no error, the text
    [INSERT INTO <quoted-table> () VALUES ()] and no values. *)
Theorem buildInsertSQL_empty_record f h :
  buildInsertSQL f h []
  = ("INSERT INTO " ++ quoteKeyword h (fileNameWithoutExtension f) ++ " () VALUES ()",
     [], None).
Proof. reflexivity. Qed.

(** ** Further properties: discovery of the fixture files *)

Lemma filesLoop_inv fileNames :
  forall acc fixtures,
    filesLoop fileNames acc = inl fixtures ->
    exists added,
      fixtures = (acc ++ added)%list
      /\ map path added = fileNames
      /\ Forall (fun fx => fileName fx = filepath_Base (path fx)
                           /\ ioutil_ReadFile (path fx) = inl (content fx)) added.
Proof.
  induction fileNames as [|f rest IH]; intros acc fixtures E.
  - injection E as <-. exists []. now rewrite app_nil_r.
  - cbn [filesLoop] in E. destruct (ioutil_ReadFile f) as [bytes|err] eqn:R; [|discriminate].
    apply IH in E as (added & -> & Hp & Hall).
    exists ({| path := f; fileName := filepath_Base f; content := bytes |} :: added).
    split; [now rewrite <- app_assoc|]. split; [cbn; now rewrite Hp|].
    constructor; [now split | exact Hall].
Qed.

Lemma filesLoop_readable (bytes : string -> string) fileNames :
  (forall f, In f fileNames -> ioutil_ReadFile f = inl (bytes f)) ->
  forall acc,
    filesLoop fileNames acc
    = inl (acc ++ map (fun f => {| path := f; fileName := filepath_Base f;
                                   content := bytes f |}) fileNames)%list.
Proof.
  induction fileNames as [|f rest IH]; intros Hr acc.
  - cbn. now rewrite app_nil_r.
  - cbn [filesLoop map]. rewrite (Hr f (or_introl eq_refl)).
    rewrite IH; [now rewrite <- app_assoc|]. intros g Hg. apply Hr. now right.
Qed.

Lemma filesLoop_error pre bad post e :
  Forall (fun f => exists bytes, ioutil_ReadFile f = inl bytes) pre ->
  ioutil_ReadFile bad = inr e ->
  forall acc, filesLoop (pre ++ bad :: post) acc = inr e.
Proof.
  intros Hpre Hbad. induction Hpre as [|f pre [bytes Hf] _ IH]; intros acc.
  - cbn. now rewrite Hbad.
  - cbn [app filesLoop]. rewrite Hf. apply IH.
Qed.

Lemma folderLoop_inv folderName fileinfos :
  forall acc fixtures,
    folderLoop folderName fileinfos acc = inl fixtures ->
    exists added,
      fixtures = (acc ++ added)%list
      /\ map fileName added = map Name (filter isFixture fileinfos)
      /\ Forall (fun fx => path fx = path_Join folderName (fileName fx)
                           /\ ioutil_ReadFile (path fx) = inl (content fx)
                           /\ filepath_Ext (fileName fx) = ".yml") added.
Proof.
  induction fileinfos as [|fi rest IH]; intros acc fixtures E.
  - injection E as <-. exists []. now rewrite app_nil_r.
  - cbn [folderLoop filter] in *. destruct (isFixture fi) eqn:S.
    + destruct (ioutil_ReadFile (path_Join folderName (Name fi))) as [bytes|err] eqn:R;
        [|discriminate].
      apply IH in E as (added & -> & Hn & Hall).
      exists ({| path := path_Join folderName (Name fi); fileName := Name fi;
                 content := bytes |} :: added).
      split; [now rewrite <- app_assoc|]. split; [cbn; now rewrite Hn|].
      constructor; [|exact Hall]. cbn. repeat split; [exact R|].
      unfold isFixture in S. apply andb_prop in S as [_ S]. now apply String.eqb_eq.
    + now apply IH.
Qed.

Lemma folderLoop_readable (bytes : string -> string) folderName fileinfos :
  (forall fi, In fi fileinfos -> isFixture fi = true ->
              ioutil_ReadFile (path_Join folderName (Name fi)) = inl (bytes (Name fi))) ->
  forall acc,
    folderLoop folderName fileinfos acc
    = inl (acc ++ map (fun fi => {| path := path_Join folderName (Name fi);
                                    fileName := Name fi;
                                    content := bytes (Name fi) |})
                      (filter isFixture fileinfos))%list.
Proof.
  induction fileinfos as [|fi rest IH]; intros Hr acc.
  - cbn. now rewrite app_nil_r.
  - cbn [folderLoop filter]. destruct (isFixture fi) eqn:S.
    + rewrite (Hr fi (or_introl eq_refl) S). cbn [map].
      rewrite IH; [now rewrite <- app_assoc|]. intros g Hg. apply Hr. now right.
    + apply IH. intros g Hg. apply Hr. now right.
Qed.

Lemma folderLoop_error folderName pre bad post e :
  Forall (fun fi => isFixture fi = true ->
                    exists bytes, ioutil_ReadFile (path_Join folderName (Name fi)) = inl bytes)
         pre ->
  isFixture bad = true ->
  ioutil_ReadFile (path_Join folderName (Name bad)) = inr e ->
  forall acc, folderLoop folderName (pre ++ bad :: post) acc = inr e.
Proof.
  intros Hpre Hs Hbad. induction Hpre as [|fi pre Hfi _ IH]; intros acc.
  - cbn. now rewrite Hs, Hbad.
  - cbn [app folderLoop]. destruct (isFixture fi); [|apply IH].
    destruct (Hfi eq_refl) as [bytes ->]. apply IH.
Qed.

(** X1. A [Context] returned by [NewFiles] carries the connection and the
    helper it was given and one fixture per file name, in the order given
    (a name given twice gives two fixtures); each fixture has the name as its
    path, [filepath.Base] of it as its file name, and the bytes read from it
    as its content. *)
Theorem NewFiles_returns_named_files d h fileNames c :
  NewFiles d h fileNames = inl c ->
  db c = d /\ helper c = h
  /\ map path (fixturesFiles c) = fileNames
  /\ Forall (fun fx => fileName fx = filepath_Base (path fx)
                       /\ ioutil_ReadFile (path fx) = inl (content fx))
            (fixturesFiles c).
Proof.
  unfold NewFiles, fixturesFromFiles.
  destruct (filesLoop fileNames []) as [fixtures|err] eqn:E; [|discriminate].
  intros C. injection C as <-. cbn.
  apply filesLoop_inv in E as (added & -> & Hp & Hall). now repeat split.
Qed.

(** X2. [NewFiles] returns the error of the first file that cannot be read,
    and no [Context], whatever the names after it. *)
Theorem NewFiles_first_unreadable d h pre bad post e :
  Forall (fun f => exists bytes, ioutil_ReadFile f = inl bytes) pre ->
  ioutil_ReadFile bad = inr e ->
  NewFiles d h (pre ++ bad :: post) = inr e.
Proof.
  intros Hpre Hbad. unfold NewFiles, fixturesFromFiles.
  now rewrite (filesLoop_error pre bad post e Hpre Hbad).
Qed.

(** X3. When every named file can be read, [NewFiles] succeeds. *)
Theorem NewFiles_readable (bytes : string -> string) d h fileNames :
  (forall f, In f fileNames -> ioutil_ReadFile f = inl (bytes f)) ->
  NewFiles d h fileNames
  = inl {| db := d; helper := h;
           fixturesFiles := map (fun f => {| path := f; fileName := filepath_Base f;
                                             content := bytes f |}) fileNames |}.
Proof.
  intros Hr. unfold NewFiles, fixturesFromFiles.
  now rewrite (filesLoop_readable bytes fileNames Hr).
Qed.

(** X4. The fixtures of a [Context] returned by [NewFolder] are, in the
    order of the directory listing, the entries that are not directories and
    whose extension is exactly [.yml]; each has the joined path, and the
    bytes read from it as content. *)
Theorem NewFolder_selects_yml d h folderName c :
  NewFolder d h folderName = inl c ->
  db c = d /\ helper c = h
  /\ exists fileinfos,
      ioutil_ReadDir folderName = inl fileinfos
      /\ map fileName (fixturesFiles c) = map Name (filter isFixture fileinfos)
      /\ Forall (fun fx => path fx = path_Join folderName (fileName fx)
                           /\ ioutil_ReadFile (path fx) = inl (content fx)
                           /\ filepath_Ext (fileName fx) = ".yml")
                (fixturesFiles c).
Proof.
  unfold NewFolder, fixturesFromFolder.
  destruct (ioutil_ReadDir folderName) as [fileinfos|err]; [|discriminate].
  destruct (folderLoop folderName fileinfos []) as [fixtures|err] eqn:E; [|discriminate].
  intros C. injection C as <-. cbn. repeat split. exists fileinfos.
  apply folderLoop_inv in E as (added & -> & Hn & Hall). now repeat split.
Qed.

(** X5. [NewFolder] reads only the entries it selects: when those can be
    read it succeeds, also when a directory or a file with another extension
    in the folder cannot. *)
Theorem NewFolder_ignores_other_entries (bytes : string -> string) d h folderName fileinfos :
  ioutil_ReadDir folderName = inl fileinfos ->
  (forall fi, In fi fileinfos -> isFixture fi = true ->
              ioutil_ReadFile (path_Join folderName (Name fi)) = inl (bytes (Name fi))) ->
  NewFolder d h folderName
  = inl {| db := d; helper := h;
           fixturesFiles :=
             map (fun fi => {| path := path_Join folderName (Name fi);
                               fileName := Name fi;
                               content := bytes (Name fi) |})
                 (filter isFixture fileinfos) |}.
Proof.
  intros Hd Hr. unfold NewFolder, fixturesFromFolder. rewrite Hd.
  now rewrite (folderLoop_readable bytes folderName fileinfos Hr).
Qed.

(** X6. [NewFolder] returns the error of the directory listing, or else the
    error of the first selected file that cannot be read, and no [Context]. *)
Theorem NewFolder_first_error d h folderName e :
  ioutil_ReadDir folderName = inr e
  \/ (exists pre bad post,
         ioutil_ReadDir folderName = inl (pre ++ bad :: post)%list
         /\ Forall (fun fi => isFixture fi = true ->
                              exists bytes,
                                ioutil_ReadFile (path_Join folderName (Name fi)) = inl bytes)
                   pre
         /\ isFixture bad = true
         /\ ioutil_ReadFile (path_Join folderName (Name bad)) = inr e) ->
  NewFolder d h folderName = inr e.
Proof.
  unfold NewFolder, fixturesFromFolder.
  intros [Hd|(pre & bad & post & Hd & Hpre & Hs & Hbad)]; rewrite Hd; [reflexivity|].
  now rewrite (folderLoop_error folderName pre bad post e Hpre Hs Hbad).
Qed.

(** ** Further properties: file names and table names *)

Lemma list_ascii_app (a b : string) :
  list_ascii_of_string (a ++ b) = (list_ascii_of_string a ++ list_ascii_of_string b)%list.
Proof. induction a as [|c a IH]; cbn; [reflexivity | now rewrite IH]. Qed.

Lemma string_of_list_app (l1 l2 : list ascii) :
  string_of_list_ascii (l1 ++ l2) = string_of_list_ascii l1 ++ string_of_list_ascii l2.
Proof. induction l1 as [|c l1 IH]; cbn; [reflexivity | now rewrite IH]. Qed.

Lemma existsb_rev {A} (p : A -> bool) (l : list A) : existsb p (rev l) = existsb p l.
Proof.
  induction l as [|x l IH]; [reflexivity|].
  cbn. rewrite existsb_app, IH. cbn. rewrite orb_false_r. apply orb_comm.
Qed.

Lemma noByte_rev (c : ascii) (s : string) :
  noByte c s = true -> existsb (Ascii.eqb c) (rev (list_ascii_of_string s)) = false.
Proof. unfold noByte. rewrite existsb_rev. now intros H%negb_true_iff. Qed.

Lemma noByte_cons (c x : ascii) (s : string) :
  noByte c (String x s) = true -> Ascii.eqb c x = false /\ noByte c s = true.
Proof.
  unfold noByte. cbn [list_ascii_of_string existsb]. intros H%negb_true_iff.
  apply orb_false_elim in H as [H1 H2].
  split; [exact H1 | now rewrite H2].
Qed.

Lemma extScan_no_dot (r : list ascii) :
  existsb (Ascii.eqb ".") r = false -> forall suffix, extScan r suffix = EmptyString.
Proof.
  induction r as [|c r IH]; intros H suffix; [reflexivity|].
  cbn [existsb] in H. apply orb_false_elim in H as [Hc Hr]. cbn [extScan].
  destruct (Ascii.eqb c "/"); [reflexivity|].
  rewrite Ascii.eqb_sym, Hc. now apply IH.
Qed.

Lemma extScan_dot (r rest : list ascii) :
  existsb (Ascii.eqb ".") r = false ->
  existsb (Ascii.eqb "/") r = false ->
  forall suffix,
    extScan (r ++ "."%char :: rest) suffix
    = String "." (string_of_list_ascii (rev r) ++ suffix).
Proof.
  induction r as [|c r IH]; intros Hd Hs suffix; [reflexivity|].
  cbn [existsb] in Hd, Hs. apply orb_false_elim in Hd as [Hd Hdr].
  apply orb_false_elim in Hs as [Hs Hsr].
  cbn [app extScan rev]. rewrite (Ascii.eqb_sym c "/"), Hs, (Ascii.eqb_sym c "."), Hd.
  rewrite (IH Hdr Hsr). rewrite string_of_list_app, append_assoc. reflexivity.
Qed.

Lemma extScan_suffix (r : list ascii) :
  forall suffix,
  exists front, string_of_list_ascii (rev r) ++ suffix = front ++ extScan r suffix.
Proof.
  induction r as [|c r IH]; intros suffix.
  - exists suffix. cbn. now rewrite append_empty_r.
  - cbn [extScan rev]. rewrite string_of_list_app, append_assoc. cbn [string_of_list_ascii append].
    destruct (Ascii.eqb c "/").
    + eexists. now rewrite append_empty_r.
    + destruct (Ascii.eqb c "."); [now eexists | apply IH].
Qed.

Lemma filepath_Ext_suffix (name : string) :
  exists front, name = front ++ filepath_Ext name.
Proof.
  unfold filepath_Ext.
  destruct (extScan_suffix (rev (list_ascii_of_string name)) EmptyString) as [front E].
  exists front. rewrite <- E, rev_involutive, string_of_list_ascii_of_string.
  now rewrite append_empty_r.
Qed.

Lemma filepath_Ext_simple (stem ext : string) :
  noByte "." ext = true -> noByte "/" ext = true ->
  filepath_Ext (stem ++ "." ++ ext) = "." ++ ext.
Proof.
  intros Hd Hs. unfold filepath_Ext. rewrite list_ascii_app. cbn [append list_ascii_of_string].
  rewrite rev_app_distr. cbn [rev]. rewrite <- app_assoc. cbn [app].
  rewrite (extScan_dot _ _ (noByte_rev _ _ Hd) (noByte_rev _ _ Hs)).
  now rewrite rev_involutive, string_of_list_ascii_of_string, append_empty_r.
Qed.

Lemma prefix_refl (s : string) : prefix s s = true.
Proof.
  induction s as [|c s IH]; [reflexivity|]. cbn.
  destruct (ascii_dec c c); [exact IH | congruence].
Qed.

Lemma prefix_append (old rest : string) : prefix old (old ++ rest) = true.
Proof.
  induction old as [|c old IH]; [now destruct rest|]. cbn.
  destruct (ascii_dec c c); [exact IH | congruence].
Qed.

Lemma dropBytes_all (s : string) : dropBytes (String.length s) s = EmptyString.
Proof. induction s as [|c s IH]; [reflexivity | exact IH]. Qed.

Lemma replaceLeftmost_stem (stem ext : string) :
  noByte "." stem = true ->
  replaceLeftmost (stem ++ String "." ext) (String "." ext) EmptyString = stem.
Proof.
  induction stem as [|c stem IH]; intros H.
  - cbn [append replaceLeftmost]. rewrite prefix_refl. cbn [append].
    apply (dropBytes_all (String "." ext)).
  - apply noByte_cons in H as [Hc Hs]. cbn [append replaceLeftmost prefix].
    destruct (ascii_dec "." c) as [E|_]; [subst c; now rewrite Ascii.eqb_refl in Hc|].
    now rewrite (IH Hs).
Qed.

Lemma fileNameWithoutExtension_simple_name_aux (f : fixtureFile) (stem ext : string) :
  noByte "." stem = true ->
  noByte "." ext = true ->
  noByte "/" ext = true ->
  fileName f = stem ++ "." ++ ext ->
  fileNameWithoutExtension f = stem.
Proof.
  intros Hstem Hd Hs E. unfold fileNameWithoutExtension, strings_Replace1.
  rewrite E, (filepath_Ext_simple stem ext Hd Hs). cbn [append String.eqb].
  now apply replaceLeftmost_stem.
Qed.

(** X7. For a file name [stem.ext] whose stem has no dot (and whose
    extension, possibly empty, has no dot and no slash) the table name is the
    stem: [posts.yml] gives [posts], and the bare extension [.yml] gives the
    empty table name. *)
Theorem fileNameWithoutExtension_simple_name (f : fixtureFile) (stem ext : string) :
  noByte "." stem = true ->
  noByte "." ext = true ->
  noByte "/" ext = true ->
  fileName f = stem ++ "." ++ ext ->
  fileNameWithoutExtension f = stem.
Proof. exact (fileNameWithoutExtension_simple_name_aux f stem ext). Qed.

(** X8. A file name without a dot is its own table name. *)
Theorem fileNameWithoutExtension_no_dot (f : fixtureFile) :
  noByte "." (fileName f) = true ->
  fileNameWithoutExtension f = fileName f.
Proof.
  intros H. unfold fileNameWithoutExtension, filepath_Ext.
  now rewrite (extScan_no_dot _ (noByte_rev _ _ H)).
Qed.

Lemma append_empty (a b : string) : a ++ b = EmptyString -> a = EmptyString /\ b = EmptyString.
Proof. destruct a; cbn; [now intros -> | discriminate]. Qed.

Lemma prefix_drop (old : string) :
  forall s, prefix old s = true -> s = old ++ dropBytes (String.length old) s.
Proof.
  induction old as [|c old IH]; intros s H; [reflexivity|].
  destruct s as [|x s]; [discriminate|]. cbn in H.
  destruct (ascii_dec c x) as [->|]; [|discriminate]. cbn. now rewrite <- (IH s H).
Qed.

Lemma replaceLeftmost_spec (old : string) :
  forall s,
    (exists a b, s = a ++ old ++ b) ->
    exists front back,
      s = front ++ old ++ back
      /\ replaceLeftmost s old EmptyString = front ++ back
      /\ forall a b, s = a ++ old ++ b -> String.length front <= String.length a.
Proof.
  assert (T : forall s, prefix old s = true ->
                        exists front back,
                          s = front ++ old ++ back
                          /\ replaceLeftmost s old EmptyString = front ++ back
                          /\ forall a b, s = a ++ old ++ b ->
                                         String.length front <= String.length a).
  { intros s P. exists EmptyString, (dropBytes (String.length old) s).
    split; [exact (prefix_drop old s P)|]. split; [|cbn; lia].
    destruct s; cbn [replaceLeftmost]; now rewrite P. }
  induction s as [|c s IH]; intros (a & b & E).
  - destruct (prefix old EmptyString) eqn:P; [now apply T|].
    symmetry in E. apply append_empty in E as [-> E]. apply append_empty in E as [-> ->].
    discriminate P.
  - destruct (prefix old (String c s)) eqn:P; [now apply T|].
    destruct a as [|x a].
    + cbn [append] in E. rewrite E in P. now rewrite prefix_append in P.
    + cbn [append] in E. injection E as <- ->.
      destruct (IH (ex_intro _ a (ex_intro _ b eq_refl))) as (front & back & E & R & L).
      exists (String c front), back. cbn [append replaceLeftmost]. rewrite P.
      split; [now rewrite <- E|]. split; [now rewrite R|].
      intros a2 b2 E2. destruct a2 as [|y a2].
      * cbn [append] in E2. rewrite E2 in P. now rewrite prefix_append in P.
      * cbn [append] in E2. injection E2 as <- E2. cbn [String.length].
        apply le_n_S. now apply (L a2 b2).
Qed.

(** X9. The table name is the file name with one occurrence of its
    extension cut out, the leftmost one, and nothing else changed: the name
    is [front ++ ext ++ back], the table name is [front ++ back], and the
    extension occurs nowhere further to the left. *)
Theorem fileNameWithoutExtension_cuts_leftmost (f : fixtureFile) :
  exists front back,
    fileName f = front ++ filepath_Ext (fileName f) ++ back
    /\ fileNameWithoutExtension f = front ++ back
    /\ forall a b, fileName f = a ++ filepath_Ext (fileName f) ++ b ->
                   String.length front <= String.length a.
Proof.
  unfold fileNameWithoutExtension, strings_Replace1.
  destruct (String.eqb_spec (filepath_Ext (fileName f)) EmptyString) as [->|_].
  - exists EmptyString, (fileName f). cbn. repeat split. lia.
  - apply replaceLeftmost_spec.
    destruct (filepath_Ext_suffix (fileName f)) as [front E].
    exists front, EmptyString. now rewrite append_empty_r.
Qed.

Lemma lastElement_slash (r rest : list ascii) :
  existsb (Ascii.eqb "/") r = false ->
  forall suffix,
    lastElement (r ++ "/"%char :: rest) suffix = string_of_list_ascii (rev r) ++ suffix.
Proof.
  induction r as [|c r IH]; intros H suffix; [reflexivity|].
  cbn [existsb] in H. apply orb_false_elim in H as [Hc Hr].
  cbn [app lastElement rev]. rewrite (Ascii.eqb_sym c "/"), Hc, (IH Hr).
  now rewrite string_of_list_app, append_assoc.
Qed.

Lemma stripSlashes_name (r rest : list ascii) :
  r <> [] -> existsb (Ascii.eqb "/") r = false ->
  stripSlashes (r ++ rest) = (r ++ rest)%list.
Proof.
  destruct r as [|c r]; [congruence|]. intros _ H.
  cbn [existsb] in H. apply orb_false_elim in H as [Hc _].
  cbn [app stripSlashes]. now rewrite (Ascii.eqb_sym c "/"), Hc.
Qed.

Lemma filepath_Base_of_path (dir name : string) :
  name <> EmptyString -> noByte "/" name = true ->
  filepath_Base (dir ++ "/" ++ name) = name.
Proof.
  intros Hne Hs. unfold filepath_Base.
  assert (N : String.eqb (dir ++ "/" ++ name) EmptyString = false)
    by (now destruct dir).
  rewrite N, list_ascii_app. cbn [append list_ascii_of_string].
  rewrite rev_app_distr. cbn [rev]. rewrite <- app_assoc. cbn [app].
  rewrite stripSlashes_name.
  - rewrite (lastElement_slash _ _ (noByte_rev _ _ Hs)).
    rewrite rev_involutive, string_of_list_ascii_of_string, append_empty_r.
    now apply String.eqb_neq in Hne as ->.
  - destruct name as [|c name]; [congruence|]. cbn [list_ascii_of_string rev].
    now destruct (rev (list_ascii_of_string name)).
  - exact (noByte_rev _ _ Hs).
Qed.

Lemma noByte_append (c : ascii) (a b : string) :
  noByte c a = true -> noByte c b = true -> noByte c (a ++ b) = true.
Proof.
  unfold noByte. rewrite list_ascii_app, existsb_app.
  intros Ha%negb_true_iff Hb%negb_true_iff. now rewrite Ha, Hb.
Qed.

(** X10. For a path [dir/stem.ext] given to [NewFiles], with a stem and an
    extension that hold no dot and no slash, the fixture made for it targets
    table [stem]: the directory part plays no role. *)
Theorem NewFiles_table_of_path d h pre post c (dir stem ext : string) :
  noByte "." stem = true -> noByte "/" stem = true ->
  noByte "." ext = true -> noByte "/" ext = true ->
  NewFiles d h (pre ++ (dir ++ "/" ++ stem ++ "." ++ ext) :: post) = inl c ->
  nth_error (map fileNameWithoutExtension (fixturesFiles c)) (length pre) = Some stem.
Proof.
  intros Hds Hss Hde Hse E.
  unfold NewFiles, fixturesFromFiles in E.
  destruct (filesLoop _ []) as [fixtures|err] eqn:L; [|discriminate].
  injection E as <-. cbn [fixturesFiles].
  apply filesLoop_inv in L as (added & -> & Hp & Hall). cbn [app].
  assert (Hn : nth_error (map path added) (length pre)
               = Some (dir ++ "/" ++ stem ++ "." ++ ext)).
  { rewrite Hp, nth_error_app2, Nat.sub_diag by lia. reflexivity. }
  rewrite nth_error_map in Hn. rewrite nth_error_map.
  destruct (nth_error added (length pre)) as [fx|] eqn:Hfx; [|discriminate].
  injection Hn as Hpath. cbn [option_map]. f_equal.
  pose proof (proj1 (Forall_forall _ _) Hall fx (nth_error_In _ _ Hfx)) as [Hname _].
  apply (fileNameWithoutExtension_simple_name_aux fx stem ext Hds Hde Hse).
  rewrite Hname, Hpath. apply filepath_Base_of_path.
  - now destruct stem.
  - apply noByte_append; [exact Hss|]. now apply (noByte_append "/" "." ext).
Qed.

(** ** Further properties: the record compiler *)

Lemma buildLoop_values h (rec : record) :
  forallb (fun kv => isStringKey (fst kv)) rec = true ->
  forall st,
    snd (buildLoop h rec st) = None
    /\ values (fst (buildLoop h rec st)) = (values st ++ map snd rec)%list.
Proof.
  induction rec as [|[k v] rec IH]; intros Hall st.
  - cbn. now rewrite app_nil_r.
  - cbn [forallb fst] in Hall. apply andb_prop in Hall as [Hk Hrest].
    destruct k; try discriminate. cbn [buildLoop map snd].
    destruct (0 <? String.length (sqlColumns st))%nat;
      match goal with
      | |- context [buildLoop h rec ?st'] => destruct (IH Hrest st') as [He Hv]
      end;
      (split; [exact He|]); rewrite Hv; cbn [values]; now rewrite <- app_assoc.
Qed.

Lemma forallb_false_existsb {A} (p : A -> bool) (l : list A) :
  forallb p l = false -> existsb (fun x => negb (p x)) l = true.
Proof.
  induction l as [|x l IH]; [discriminate|]. cbn.
  destruct (p x); cbn; [exact IH | reflexivity].
Qed.

Lemma buildLoop_app h (a b : record) :
  forall st,
    buildLoop h (a ++ b)%list st
    = match snd (buildLoop h a st) with
      | Some e => buildLoop h a st
      | None => buildLoop h b (fst (buildLoop h a st))
      end.
Proof.
  induction a as [|[k v] a IH]; intros st; [reflexivity|].
  cbn [app buildLoop]. destruct k; try reflexivity. apply IH.
Qed.

Lemma stringRecord_keys (cols : list (string * yvalue)) :
  forallb (fun kv => isStringKey (fst kv)) (stringRecord cols) = true.
Proof. induction cols as [|[k v] cols IH]; [reflexivity | exact IH]. Qed.

Lemma stringRecord_values (cols : list (string * yvalue)) :
  map snd (stringRecord cols) = map snd cols.
Proof. unfold stringRecord. rewrite map_map. reflexivity. Qed.

Lemma placeholder_same h (n : Z) (kv kv' : yvalue * yvalue) :
  sameColumn h kv kv' -> placeholder h n (snd kv) = placeholder h n (snd kv').
Proof.
  intros [_ H]. unfold placeholder. destruct (paramType h); try reflexivity.
  destruct (H eq_refl) as (-> & -> & ->). reflexivity.
Qed.

Lemma buildLoop_same h (rec rec' : record) :
  Forall2 (sameColumn h) rec rec' ->
  forall st st',
    sqlColumns st = sqlColumns st' -> sqlValues st = sqlValues st' -> i st = i st' ->
    sqlColumns (fst (buildLoop h rec st)) = sqlColumns (fst (buildLoop h rec' st'))
    /\ sqlValues (fst (buildLoop h rec st)) = sqlValues (fst (buildLoop h rec' st'))
    /\ snd (buildLoop h rec st) = snd (buildLoop h rec' st').
Proof.
  induction 1 as [|[k v] [k' v'] rec rec' Hkv _ IH]; intros st st' Hc Hv Hi.
  - now repeat split.
  - pose proof (placeholder_same h (i st') _ _ Hkv) as Hp.
    destruct Hkv as [Hk _]. cbn [fst snd] in Hk, Hp. subst k'.
    cbn [buildLoop]. rewrite Hc.
    destruct (0 <? String.length (sqlColumns st'))%nat; destruct k;
      cbn [fst snd sqlColumns sqlValues i];
      try (now rewrite ?Hc, ?Hv; repeat split);
      apply IH; cbn [sqlColumns sqlValues i]; now rewrite ?Hc, ?Hv, ?Hi, ?Hp.
Qed.

(** X11. [buildInsertSQL] fails exactly when some key of the record is not
    a string, with any helper; when it succeeds the values it returns are
    the values of the record in iteration order, and when it fails the error
    is [ErrKeyIsNotString] and the SQL text is empty. *)
Theorem buildInsertSQL_fails_only_on_keys f h (rec : record) :
  (snd (buildInsertSQL f h rec) = None
   <-> forallb (fun kv => isStringKey (fst kv)) rec = true)
  /\ (snd (buildInsertSQL f h rec) = None ->
      snd (fst (buildInsertSQL f h rec)) = map snd rec)
  /\ (snd (buildInsertSQL f h rec) <> None ->
      snd (buildInsertSQL f h rec) = Some ErrKeyIsNotString
      /\ fst (fst (buildInsertSQL f h rec)) = EmptyString).
Proof.
  unfold buildInsertSQL.
  destruct (forallb (fun kv => isStringKey (fst kv)) rec) eqn:K.
  - destruct (buildLoop_values h rec K
                {| sqlColumns := EmptyString; sqlValues := EmptyString;
                   i := 1; values := [] |}) as [He Hv].
    destruct (buildLoop h rec _) as [st err]. cbn [fst snd] in He, Hv. subst err.
    cbn [fst snd]. repeat split; try congruence. now intros _.
  - pose proof (buildLoop_non_string_key h rec (forallb_false_existsb _ _ K)
                  {| sqlColumns := EmptyString; sqlValues := EmptyString;
                     i := 1; values := [] |}) as He.
    destruct (buildLoop h rec _) as [st err]. cbn [snd] in He. subst err.
    cbn [fst snd]. repeat split; discriminate.
Qed.

(** X12. When the range loop meets its first key that is not a string after
    the string-keyed entries [front], [buildInsertSQL] returns the empty
    text, the error, and the values of [front]: the entries after the
    offending key are not visited. *)
Theorem buildInsertSQL_stops_at_key f h (front : list (string * yvalue))
        (k v : yvalue) (rest : record) :
  isStringKey k = false ->
  buildInsertSQL f h (stringRecord front ++ (k, v) :: rest)%list
  = (EmptyString, map snd front, Some ErrKeyIsNotString).
Proof.
  intros Hk. unfold buildInsertSQL. rewrite buildLoop_app.
  destruct (buildLoop_values h (stringRecord front) (stringRecord_keys front)
              {| sqlColumns := EmptyString; sqlValues := EmptyString;
                 i := 1; values := [] |}) as [He Hv].
  rewrite He. destruct (buildLoop h (stringRecord front) _) as [st err].
  cbn [fst snd values app] in *. rewrite stringRecord_values in Hv.
  cbn [buildLoop]. destruct k; try discriminate;
    destruct (0 <? String.length (sqlColumns st))%nat; cbn [values]; now rewrite Hv.
Qed.

(** X13. The SQL text and the error of [buildInsertSQL] are decided by the
    keys of the record alone under the dollar and question styles, and by
    the keys and the verdicts of the three date and time checks under the
    colon style: no value is ever written into the text. *)
Theorem buildInsertSQL_text_ignores_values f h (rec rec' : record) :
  Forall2 (sameColumn h) rec rec' ->
  fst (fst (buildInsertSQL f h rec)) = fst (fst (buildInsertSQL f h rec'))
  /\ snd (buildInsertSQL f h rec) = snd (buildInsertSQL f h rec').
Proof.
  intros H. unfold buildInsertSQL.
  destruct (buildLoop_same h rec rec' H
              {| sqlColumns := EmptyString; sqlValues := EmptyString;
                 i := 1; values := [] |}
              {| sqlColumns := EmptyString; sqlValues := EmptyString;
                 i := 1; values := [] |} eq_refl eq_refl eq_refl) as (Hc & Hv & He).
  destruct (buildLoop h rec _) as [st err], (buildLoop h rec' _) as [st' err'].
  cbn [fst snd] in *. subst err'. destruct err; cbn [fst snd]; [now split|].
  now rewrite Hc, Hv.
Qed.

(** ** Further properties: what [insert] and [Load] write to the log *)

Lemma insertRow_log f tx h row w :
  exists r T,
    insertRow f tx h row w = (Done r, (w ++ T)%list)
    /\ Forall (fun ev => exists rec sqlStr vals res,
                   row = YMap rec
                   /\ buildInsertSQL f h rec = (sqlStr, vals, None)
                   /\ ev = EvExec sqlStr vals res) T.
Proof.
  assert (N : forall e : error, exists (r : option error) T,
               ret (Some e) w = (Done r, (w ++ T)%list)
               /\ Forall (fun ev => exists rec sqlStr vals res,
                              row = YMap rec
                              /\ buildInsertSQL f h rec = (sqlStr, vals, None)
                              /\ ev = EvExec sqlStr vals res) T).
  { intros e. exists (Some e), []. split; [now rewrite app_nil_r | constructor]. }
  destruct row as [| | | | |items|rec]; cbn [insertRow]; try apply N.
  destruct (buildInsertSQL f h rec) as [[sqlStr vals] [e|]] eqn:B; [apply N|].
  eexists _, [_]. split; [reflexivity|]. constructor; [|constructor].
  now exists rec, sqlStr, vals, (driver w sqlStr vals).
Qed.

Lemma insertRows_log f tx h rows :
  forall w,
  exists r T,
    insertRows f tx h rows w = (Done r, (w ++ T)%list)
    /\ Forall (fun ev => exists rec sqlStr vals res,
                   In (YMap rec) rows
                   /\ buildInsertSQL f h rec = (sqlStr, vals, None)
                   /\ ev = EvExec sqlStr vals res) T.
Proof.
  induction rows as [|row rows IH]; intros w.
  - exists None, []. split; [now rewrite app_nil_r | constructor].
  - cbn [insertRows]. destruct (insertRow_log f tx h row w) as (r & T & E & HT).
    rewrite (bind_Done _ _ _ _ _ E).
    assert (HT' : Forall (fun ev => exists rec sqlStr vals res,
                            In (YMap rec) (row :: rows)
                            /\ buildInsertSQL f h rec = (sqlStr, vals, None)
                            /\ ev = EvExec sqlStr vals res) T).
    { eapply Forall_impl; [|exact HT]. intros ev (rec & sqlStr & vals & res & -> & B & ->).
      exists rec, sqlStr, vals, res. split; [now left | now split]. }
    destruct r as [e|].
    + now exists (Some e), T.
    + destruct (IH (w ++ T)%list) as (r' & T' & E' & HT2).
      exists r', (T ++ T')%list. rewrite E', app_assoc. split; [reflexivity|].
      apply Forall_app. split; [exact HT'|].
      eapply Forall_impl; [|exact HT2]. intros ev (rec & sqlStr & vals & res & Hin & B & ->).
      exists rec, sqlStr, vals, res. split; [now right | now split].
Qed.

Lemma insertEntries_log f tx h entries :
  forall w,
  exists T,
    snd (insertEntries f tx h entries w) = (w ++ T)%list
    /\ Forall (fun ev => exists rec sqlStr vals res,
                   In (YMap rec) (map snd entries)
                   /\ buildInsertSQL f h rec = (sqlStr, vals, None)
                   /\ ev = EvExec sqlStr vals res) T
    /\ (forall msg, fst (insertEntries f tx h entries w) = Panicked msg ->
                    existsb (fun e => isNaNKey (fst e)) entries = true).
Proof.
  induction entries as [|[key row] entries IH]; intros w.
  - exists []. cbn. rewrite app_nil_r. repeat split; [constructor | discriminate].
  - cbn [insertEntries existsb fst map snd]. destruct (isNaNKey key).
    + exists []. cbn. rewrite app_nil_r. repeat split. constructor.
    + unfold bind. destruct (insertRow_log f tx h row w) as (r & T & -> & HT).
      assert (HT' : Forall (fun ev => exists rec sqlStr vals res,
                              In (YMap rec) (row :: map snd entries)
                              /\ buildInsertSQL f h rec = (sqlStr, vals, None)
                              /\ ev = EvExec sqlStr vals res) T).
      { eapply Forall_impl; [|exact HT].
        intros ev (rec & sqlStr & vals & res & -> & B & ->).
        exists rec, sqlStr, vals, res. split; [now left | now split]. }
      destruct r as [e|].
      * exists T. cbn. repeat split; [exact HT' | discriminate].
      * destruct (IH (w ++ T)%list) as (T' & E' & HT2 & HP).
        exists (T ++ T')%list. rewrite E', app_assoc. split; [reflexivity|]. split.
        -- apply Forall_app. split; [exact HT'|].
           eapply Forall_impl; [|exact HT2].
           intros ev (rec & sqlStr & vals & res & Hin & B & ->).
           exists rec, sqlStr, vals, res. split; [now right | now split].
        -- cbn [orb]. exact HP.
Qed.

Lemma insert_log f tx h w :
  exists T,
    snd (insert f tx h w) = (w ++ T)%list /\ Forall (insertOfRow f h) T.
Proof.
  unfold insertOfRow, insert, recordsOf.
  destruct (yaml_Unmarshal (content f)) as [[| | | | |items|entries]|e];
    try (exists []; split; [cbn; now rewrite app_nil_r | constructor]).
  - destruct (insertRows_log f tx h items w) as (r & T & -> & HT). now exists T.
  - destruct (insertEntries_log f tx h entries w) as (T & E & HT & _). now exists T.
Qed.

(** X14. In a sequence file, a row that is not a mapping makes [insert]
    return [ErrWrongCastNotAMap] once the rows before it are inserted;
    nothing is executed for it or for the rows after it. *)
Theorem insert_rejects_non_mapping_row f tx h (front rest : list yvalue) (row : yvalue)
        w w1 :
  (forall rec, row <> YMap rec) ->
  yaml_Unmarshal (content f) = inl (YSlice (front ++ row :: rest)) ->
  insertRows f tx h front w = (Done None, w1) ->
  insert f tx h w = (Done (Some ErrWrongCastNotAMap), w1).
Proof.
  intros Hrow Hy Hfront. unfold insert. rewrite Hy.
  rewrite (insertRows_app _ _ _ _ _ _ _ Hfront). cbn [insertRows].
  destruct row; try reflexivity. now destruct (Hrow entries).
Qed.

(** X15. Whatever the content of the file and whatever the database
    answers, [insert] only appends to the log, and what it appends are
    statements that [buildInsertSQL] compiled from rows of the file, each
    bound to the values of its row; it panics only on content that decodes
    to [nil], or to a mapping that has a NaN key. *)
Theorem insert_only_inserts f tx h w :
  (exists T,
      snd (insert f tx h w) = (w ++ T)%list
      /\ Forall (fun ev =>
                   exists rec sqlStr vals res,
                     In (YMap rec) (recordsOf f)
                     /\ buildInsertSQL f h rec = (sqlStr, vals, None)
                     /\ ev = EvExec sqlStr vals res) T)
  /\ (forall msg,
         fst (insert f tx h w) = Panicked msg ->
         yaml_Unmarshal (content f) = inl YNil
         \/ exists entries,
             yaml_Unmarshal (content f) = inl (YMap entries)
             /\ existsb (fun e => isNaNKey (fst e)) entries = true).
Proof.
  split; [apply insert_log|].
  intros msg. unfold insert.
  destruct (yaml_Unmarshal (content f)) as [[| | | | |items|entries]|e];
    try discriminate; [now left| |].
  - destruct (insertRows_log f tx h items w) as (r & T & -> & _). discriminate.
  - intros P. right. exists entries. split; [reflexivity|].
    destruct (insertEntries_log f tx h entries w) as (T & _ & _ & HP). now apply (HP msg).
Qed.

Lemma loadFile_log name h tx f w :
  bracketing name h ->
  exists T,
    snd (loadFile tx h f w)
    = (w ++ EvExec ("DELETE FROM " ++ quoteKeyword h (fileNameWithoutExtension f)) []
              (driver w ("DELETE FROM " ++ quoteKeyword h (fileNameWithoutExtension f)) [])
            :: T)%list
    /\ Forall (fun ev => isMarker ev \/ insertOfRow f h ev) T.
Proof.
  intros (_ & _ & Hw). unfold loadFile, bind, delete, tx_Exec.
  destruct (driver w _ []) as [e|].
  - exists []. split; [reflexivity | constructor].
  - rewrite Hw. unfold bind, emit, ret.
    destruct (insert_log f tx h
                ((w ++ [EvExec ("DELETE FROM "
                                  ++ quoteKeyword h (fileNameWithoutExtension f)) [] None])
                   ++ [EvTableBegin (fileNameWithoutExtension f)])%list)
      as (T & E & HT).
    destruct (insert f tx h _) as [[r|msg] wi]; cbn [snd] in E; subst wi; cbn [snd].
    + exists (EvTableBegin (fileNameWithoutExtension f) :: T
                ++ [EvTableEnd (fileNameWithoutExtension f)])%list.
      split; [now rewrite <- !app_assoc|].
      constructor; [now left|]. apply Forall_app. split.
      * eapply Forall_impl; [|exact HT]. now right.
      * constructor; [now left | constructor].
    + exists (EvTableBegin (fileNameWithoutExtension f) :: T).
      split; [now rewrite <- !app_assoc|].
      constructor; [now left|]. eapply Forall_impl; [|exact HT]. now right.
Qed.

Lemma loadFiles_log name h tx files :
  bracketing name h ->
  forall w,
  exists T,
    snd (loadFiles tx h files w) = (w ++ T)%list
    /\ Forall (fun ev =>
                 isMarker ev
                 \/ exists f, In f files
                              /\ (deletesFrom (quoteKeyword h (fileNameWithoutExtension f)) ev
                                  \/ insertOfRow f h ev))
              T.
Proof.
  intros Hb. induction files as [|f files IH]; intros w.
  - exists []. split; [cbn; now rewrite app_nil_r | constructor].
  - cbn [loadFiles]. unfold bind.
    destruct (loadFile_log name h tx f w Hb) as (T & E & HT).
    assert (HT' : Forall (fun ev =>
                 isMarker ev
                 \/ exists g, In g (f :: files)
                              /\ (deletesFrom (quoteKeyword h (fileNameWithoutExtension g)) ev
                                  \/ insertOfRow g h ev))
              (EvExec ("DELETE FROM " ++ quoteKeyword h (fileNameWithoutExtension f)) []
                 (driver w ("DELETE FROM "
                              ++ quoteKeyword h (fileNameWithoutExtension f)) []) :: T)).
    { constructor.
      - right. exists f. split; [now left|]. left. now eexists.
      - eapply Forall_impl; [|exact HT]. intros ev [M|I]; [now left|].
        right. exists f. split; [now left | now right]. }
    destruct (loadFile tx h f w) as [[[e|]|msg] wm]; cbn [snd] in E; subst wm.
    + eexists. split; [reflexivity | exact HT'].
    + destruct (IH (w ++ EvExec ("DELETE FROM "
                                   ++ quoteKeyword h (fileNameWithoutExtension f)) []
                          (driver w ("DELETE FROM "
                                       ++ quoteKeyword h (fileNameWithoutExtension f)) [])
                        :: T)%list) as (T2 & -> & HT2).
      eexists. split; [now rewrite <- app_assoc|].
      apply Forall_app. split; [exact HT'|].
      eapply Forall_impl; [|exact HT2]. intros ev [M|(g & Hg & S)]; [now left|].
      right. exists g. split; [now right | exact S].
    + eexists. split; [reflexivity | exact HT'].
Qed.

(** X16. With helpers that meet their contract, and whatever the fixture
    files hold and the database answers, [Load] only appends to the log, and
    every statement it executes is, for a file of the fixture set, either
    the [DELETE FROM] of the file's quoted table, without arguments, or the
    statement that [buildInsertSQL] compiled from one of the file's rows,
    bound to the values of that row. *)
Theorem Load_executes_only_compiled_statements name skip c w :
  bracketing name (helper c) ->
  exists T,
    snd (Load skip c w) = (w ++ T)%list
    /\ Forall (fun ev =>
                 isMarker ev
                 \/ exists f,
                     In f (fixturesFiles c)
                     /\ ((exists res,
                             ev = EvExec ("DELETE FROM "
                                            ++ quoteKeyword (helper c)
                                                 (fileNameWithoutExtension f)) [] res)
                         \/ exists rec sqlStr vals res,
                             In (YMap rec) (recordsOf f)
                             /\ buildInsertSQL f (helper c) rec = (sqlStr, vals, None)
                             /\ ev = EvExec sqlStr vals res))
              T.
Proof.
  intros Hb. pose proof Hb as (Hn & Hd & _).
  assert (B : forall w0,
             exists T,
               snd (disableReferentialIntegrity (helper c) (db c)
                      (fun tx => loadFiles tx (helper c) (fixturesFiles c)) w0)
               = (w0 ++ T)%list
               /\ Forall (fun ev =>
                 isMarker ev
                 \/ exists f,
                     In f (fixturesFiles c)
                     /\ (deletesFrom (quoteKeyword (helper c) (fileNameWithoutExtension f)) ev
                         \/ insertOfRow f (helper c) ev))
              T).
  { intros w0. rewrite Hd. unfold bind, emit, ret.
    destruct (loadFiles_log name (helper c) (SqlTx (db c)) (fixturesFiles c) Hb
                (w0 ++ [EvIntegrityOff])%list) as (T & E & HT).
    destruct (loadFiles _ _ _ _) as [[r|msg] wb]; cbn [snd] in E; subst wb; cbn [snd].
    - exists (EvIntegrityOff :: T ++ [EvIntegrityOn])%list.
      split; [now rewrite <- !app_assoc|].
      constructor; [now left|]. apply Forall_app. split; [exact HT|].
      constructor; [now left | constructor].
    - exists (EvIntegrityOff :: T). split; [now rewrite <- !app_assoc|].
      constructor; [now left | exact HT]. }
  unfold deletesFrom, insertOfRow in B.
  unfold Load, checkDatabaseName. destruct skip; cbn [negb].
  - unfold bind at 1. unfold ret at 1. apply B.
  - unfold bind at 1. unfold bind at 1. rewrite Hn.
    destruct (negb (dbnameRegexp_MatchString name)).
    + exists [EvDatabaseName name]. split; [reflexivity|]. constructor; [now left | constructor].
    + unfold ret at 1. destruct (B (w ++ [EvDatabaseName name])%list) as (T & -> & HT).
      exists (EvDatabaseName name :: T). split; [now rewrite <- app_assoc|].
      constructor; [now left | exact HT].
Qed.

(** X17. With helpers that meet their contract, the first thing [Load]'s
    loop does for a file is its [DELETE FROM]: the table is wiped (or the
    wipe refused) before the content of the file is decoded, so also for a
    file that turns out to be malformed. *)
Theorem loadFile_wipes_first name h tx f w :
  bracketing name h ->
  exists T,
    snd (loadFile tx h f w)
    = (w ++ EvExec ("DELETE FROM " ++ quoteKeyword h (fileNameWithoutExtension f)) []
              (driver w ("DELETE FROM " ++ quoteKeyword h (fileNameWithoutExtension f)) [])
            :: T)%list.
Proof.
  intros Hb. destruct (loadFile_log name h tx f w Hb) as (T & E & _). now exists T.
Qed.

Lemma accepts_of_In (w : World) (T : list event) :
  (forall sql args res w', In (EvExec sql args res) T -> driver w' sql args = None) ->
  accepts w T.
Proof.
  intros H T1 sql args res T2 E. apply (H sql args res). rewrite E. apply in_elt.
Qed.

Lemma accepts_app (w : World) (T T' : list event) :
  accepts w (T ++ T')%list -> accepts w T /\ accepts (w ++ T)%list T'.
Proof.
  intros H. split; intros T1 sql args res T2 E.
  - apply (H T1 sql args res (T2 ++ T')%list). rewrite E, <- app_assoc. reflexivity.
  - rewrite <- app_assoc. apply (H (T ++ T1)%list sql args res T2).
    rewrite E, <- app_assoc. reflexivity.
Qed.

Lemma accepts_head (w : World) sql args res (T : list event) :
  accepts w (EvExec sql args res :: T) ->
  driver w sql args = None /\ accepts (w ++ [EvExec sql args res])%list T.
Proof.
  intros H. split.
  - rewrite <- (app_nil_r w). now apply (H [] sql args res T).
  - now apply (accepts_app w [EvExec sql args res] T).
Qed.

Lemma accepts_marker (w : World) (ev : event) (T : list event) :
  accepts w (ev :: T) -> accepts (w ++ [ev])%list T.
Proof. intros H. now apply (accepts_app w [ev] T). Qed.

Lemma stringKeyed_compiles f h row :
  stringKeyed row ->
  exists rec sqlStr vals,
    row = YMap rec /\ buildInsertSQL f h rec = (sqlStr, vals, None).
Proof.
  intros (rec & -> & Hk).
  destruct (buildLoop_values h rec Hk
              {| sqlColumns := EmptyString; sqlValues := EmptyString;
                 i := 1; values := [] |}) as [He _].
  exists rec. unfold buildInsertSQL. destruct (buildLoop h rec _) as [st err].
  cbn [snd] in He. subst err. eexists _, _. split; reflexivity.
Qed.

Lemma insertRow_accepted f tx h row w :
  stringKeyed row ->
  accepts w [insertEventOf f h row] ->
  insertRow f tx h row w = (Done None, (w ++ [insertEventOf f h row])%list).
Proof.
  intros Hrow Ha. destruct (stringKeyed_compiles f h row Hrow) as (rec & sqlStr & vals & -> & B).
  cbn [insertRow insertEventOf] in *. rewrite B in *.
  unfold tx_Exec. now rewrite (proj1 (accepts_head _ _ _ _ _ Ha)).
Qed.

Lemma insertRows_accepted f tx h rows :
  Forall stringKeyed rows ->
  forall w,
    accepts w (map (insertEventOf f h) rows) ->
    insertRows f tx h rows w = (Done None, (w ++ map (insertEventOf f h) rows)%list).
Proof.
  induction 1 as [|row rows Hrow _ IH]; intros w Ha.
  - cbn. now rewrite app_nil_r.
  - cbn [insertRows map] in *. unfold bind.
    apply (accepts_app w [insertEventOf f h row]) in Ha as [Ha1 Ha2].
    rewrite (insertRow_accepted f tx h row w Hrow Ha1), (IH _ Ha2).
    now rewrite <- app_assoc.
Qed.

Lemma insertEntries_accepted f tx h entries :
  forallb (fun e => negb (isNaNKey (fst e))) entries = true ->
  Forall stringKeyed (map snd entries) ->
  forall w,
    accepts w (map (insertEventOf f h) (map snd entries)) ->
    insertEntries f tx h entries w
    = (Done None, (w ++ map (insertEventOf f h) (map snd entries))%list).
Proof.
  induction entries as [|[key row] entries IH]; intros Hn Hrows w Ha.
  - cbn. now rewrite app_nil_r.
  - cbn [forallb fst] in Hn. apply andb_prop in Hn as [Hk Hn].
    apply negb_true_iff in Hk. cbn [map snd] in *. inversion Hrows as [|? ? Hrow Hrest]; subst.
    cbn [insertEntries]. rewrite Hk. unfold bind.
    apply (accepts_app w [insertEventOf f h row]) in Ha as [Ha1 Ha2].
    rewrite (insertRow_accepted f tx h row w Hrow Ha1), (IH Hn Hrest _ Ha2).
    now rewrite <- app_assoc.
Qed.

(** X18. With helpers that meet their contract and a database name that
    passes the check (or the check skipped), [Load] succeeds whenever every
    file of the set decodes to a sequence, or to a mapping without a NaN key,
    of rows that are mappings with string keys, and the database accepts each
    statement of the batch in the state in which it arrives; the log it
    leaves is the one of a successful load. *)
Theorem Load_succeeds_on_well_formed name skip c w :
  bracketing name (helper c) ->
  (skip = false -> dbnameRegexp_MatchString name = true) ->
  Forall (fun f => isSliceOrMap f = true
                   /\ nanFreeKeys f = true
                   /\ Forall stringKeyed (recordsOf f))
         (fixturesFiles c) ->
  accepts w (loadTrace skip name c) ->
  Load skip c w = (Done None, (w ++ loadTrace skip name c)%list).
Proof.
  intros (Hn & Hd & Hw) Hname Hfiles Hacc.
  assert (L : forall w0,
             accepts w0 (flat_map (fileTrace (helper c)) (fixturesFiles c)) ->
             loadFiles (SqlTx (db c)) (helper c) (fixturesFiles c) w0
             = (Done None, (w0 ++ flat_map (fileTrace (helper c)) (fixturesFiles c))%list)).
  { induction Hfiles as [|f files (Hshape & Hnan & Hrows) _ IH]; intros w0 Ha.
    - cbn. now rewrite app_nil_r.
    - cbn [loadFiles flat_map] in *. unfold bind at 1.
      apply accepts_app in Ha as [Haf Har].
      assert (E : loadFile (SqlTx (db c)) (helper c) f w0
                  = (Done None, (w0 ++ fileTrace (helper c) f)%list)).
      { unfold fileTrace in Haf. cbn [app] in Haf.
        apply accepts_head in Haf as [Hdel Haf]. apply accepts_marker in Haf.
        apply accepts_app in Haf as [Hins _].
        unfold loadFile, bind, delete, tx_Exec. rewrite Hdel, Hw. unfold bind, emit, ret.
        rewrite <- app_assoc in Hins. cbn [app] in Hins.
        assert (I : insert f (SqlTx (db c)) (helper c)
                      ((w0 ++ [EvExec ("DELETE FROM "
                                         ++ quoteKeyword (helper c)
                                              (fileNameWithoutExtension f)) [] None])
                         ++ [EvTableBegin (fileNameWithoutExtension f)])%list
                    = (Done None,
                       (((w0 ++ [EvExec ("DELETE FROM "
                                           ++ quoteKeyword (helper c)
                                                (fileNameWithoutExtension f)) [] None])
                           ++ [EvTableBegin (fileNameWithoutExtension f)])
                          ++ map (insertEventOf f (helper c)) (recordsOf f))%list)).
        { rewrite <- app_assoc. cbn [app].
          unfold insert, recordsOf, isSliceOrMap, nanFreeKeys in *.
          destruct (yaml_Unmarshal (content f)) as [[| | | | |items|entries]|e];
            try discriminate.
          - now apply insertRows_accepted.
          - now apply insertEntries_accepted. }
        rewrite I. unfold fileTrace. cbn [app]. now rewrite <- !app_assoc. }
      rewrite E, (IH _ Har). now rewrite <- app_assoc. }
  unfold Load, checkDatabaseName, loadTrace in *. destruct skip; cbn [negb app] in *.
  - unfold bind at 1. unfold ret at 1. rewrite Hd. unfold bind, emit, ret.
    apply accepts_marker in Hacc. apply accepts_app in Hacc as [Hacc _].
    rewrite (L _ Hacc). now rewrite <- !app_assoc.
  - unfold bind at 1. unfold bind at 1. rewrite Hn, (Hname eq_refl). cbn [negb].
    unfold ret at 1. rewrite Hd. unfold bind, emit, ret.
    apply accepts_marker in Hacc. apply accepts_marker in Hacc.
    apply accepts_app in Hacc as [Hacc _].
    rewrite (L _ Hacc). now rewrite <- !app_assoc.
Qed.

End Engine.

(** ** Two calls of [Load] in succession *)

Section TwoLoads.

(** The decodes of the first and of the second call, and the engine behind
    the connection. *)
Variables yaml1 yaml2 : string -> yvalue + error.
Variable driver : World -> string -> list yvalue -> option error.
Variables isDateTime isDate isTime : yvalue -> bool.
Variable dbnameRegexp_MatchString : string -> bool.
Variable E : Engine.

Local Notation "'Load1'" := (Load yaml1 driver isDateTime isDate isTime dbnameRegexp_MatchString).
Local Notation "'Load2'" := (Load yaml2 driver isDateTime isDate isTime dbnameRegexp_MatchString).
Local Notation "'rows1'" := (recordsOf yaml1).
Local Notation "'rows2'" := (recordsOf yaml2).
Local Notation "'statement'" := (insertEventOf isDateTime isDate isTime).
Local Notation "'inserts1'" := (insertsOf yaml1 isDateTime isDate isTime).
Local Notation "'inserts2'" := (insertsOf yaml2 isDateTime isDate isTime).
Local Notation "'fileTrace1'" := (fileTrace yaml1 isDateTime isDate isTime).
Local Notation "'fileTrace2'" := (fileTrace yaml2 isDateTime isDate isTime).
Local Notation "'loadTrace1'" := (loadTrace yaml1 isDateTime isDate isTime).
Local Notation "'loadTrace2'" := (loadTrace yaml2 isDateTime isDate isTime).

Lemma applyEvent_perm (q : string) (ev : event) (rows rows' : list (Row E)) :
  Permutation rows rows' ->
  Permutation (applyEvent E q rows ev) (applyEvent E q rows' ev).
Proof.
  intros H. unfold applyEvent, applyEffect.
  destruct (effectOf E ev) as [q'|q' row|]; try exact H;
    destruct (String.eqb q' q); try exact H; [constructor|].
  now apply Permutation_app_tail.
Qed.

Lemma fold_same_events (q : string) (T : list event) :
  forall rows rows',
    Permutation rows rows' ->
    Permutation (fold_left (applyEvent E q) T rows) (fold_left (applyEvent E q) T rows').
Proof.
  induction T as [|ev T IH]; intros rows rows' H; [exact H|].
  cbn [fold_left]. now apply IH, applyEvent_perm.
Qed.

Lemma fold_wiped (q : string) (ev : event) (T : list event) :
  In ev T -> effectOf E ev = Wipes q ->
  forall rows rows',
    fold_left (applyEvent E q) T rows = fold_left (applyEvent E q) T rows'.
Proof.
  intros Hin Hw. induction T as [|ev' T IH]; intros rows rows'; [destruct Hin|].
  destruct Hin as [->|Hin].
  - cbn [fold_left]. unfold applyEvent. rewrite Hw. cbn [applyEffect].
    now rewrite String.eqb_refl.
  - cbn [fold_left]. now apply IH.
Qed.

Lemma fold_inserts (q : string) (L : list event) :
  Forall (fun ev => effectOf E ev <> Wipes q) L ->
  forall rows,
    fold_left (applyEvent E q) L rows
    = (rows ++ addedTo E q (map (effectOf E) L))%list.
Proof.
  induction 1 as [|ev L Hev _ IH]; intros rows.
  - cbn. now rewrite app_nil_r.
  - cbn [fold_left map addedTo flat_map]. rewrite IH. fold (addedTo E q (map (effectOf E) L)).
    unfold applyEvent, applyEffect.
    destruct (effectOf E ev) as [q'|q' row|]; try reflexivity.
    + destruct (String.eqb_spec q' q) as [->|_]; [now destruct Hev | reflexivity].
    + destruct (String.eqb q' q); [now rewrite <- app_assoc | reflexivity].
Qed.

Lemma addedTo_perm (q : string) (effs effs' : list (effect E)) :
  Permutation effs effs' -> Permutation (addedTo E q effs) (addedTo E q effs').
Proof. intros H. unfold addedTo. now apply Permutation_flat_map. Qed.

Lemma fold_file (q : string) h f (rows rows' : list (Row E)) :
  Permutation rows rows' ->
  Permutation (map (effectOf E) (inserts1 h f)) (map (effectOf E) (inserts2 h f)) ->
  Forall (fun ev => effectOf E ev <> Wipes q) (inserts1 h f) ->
  Permutation (fold_left (applyEvent E q) (fileTrace1 h f) rows)
              (fold_left (applyEvent E q) (fileTrace2 h f) rows').
Proof.
  intros Hrows Hperm Hnw.
  assert (Hnw2 : Forall (fun ev => effectOf E ev <> Wipes q) (inserts2 h f)).
  { apply (proj1 (Forall_map (effectOf E) (fun e => e <> Wipes q) (inserts2 h f))).
    eapply Permutation_Forall; [exact Hperm|].
    exact (proj2 (Forall_map (effectOf E) (fun e => e <> Wipes q) (inserts1 h f)) Hnw). }
  unfold fileTrace. fold (inserts1 h f). fold (inserts2 h f).
  rewrite !fold_left_app, (fold_inserts q _ Hnw), (fold_inserts q _ Hnw2).
  apply fold_same_events. apply Permutation_app; [|now apply addedTo_perm].
  now apply fold_same_events.
Qed.

Lemma fold_files (q : string) h (files : list fixtureFile) :
  Forall (fun g =>
            Permutation (map (effectOf E) (inserts1 h g)) (map (effectOf E) (inserts2 h g))
            /\ Forall (fun ev => effectOf E ev <> Wipes q) (inserts1 h g)) files ->
  forall rows rows',
    Permutation rows rows' ->
    Permutation (fold_left (applyEvent E q) (flat_map (fileTrace1 h) files) rows)
                (fold_left (applyEvent E q) (flat_map (fileTrace2 h) files) rows').
Proof.
  induction 1 as [|g files [Hp Hnw] _ IH]; intros rows rows' H; [exact H|].
  cbn [flat_map]. rewrite !fold_left_app. now apply IH, fold_file.
Qed.

Lemma fold_loads (q : string) skip name c :
  Forall (fun g =>
            Permutation (map (effectOf E) (inserts1 (helper c) g))
                        (map (effectOf E) (inserts2 (helper c) g))
            /\ Forall (fun ev => effectOf E ev <> Wipes q) (inserts1 (helper c) g))
         (fixturesFiles c) ->
  Permutation (fold_left (applyEvent E q) (loadTrace1 skip name c) [])
              (fold_left (applyEvent E q) (loadTrace2 skip name c) []).
Proof.
  intros H. unfold loadTrace. rewrite !fold_left_app.
  apply fold_same_events. now apply fold_files.
Qed.

Lemma same_rows_read_alike h f (items items' : list yvalue) (known : list yvalue) :
  (forall rec rec',
      In (YMap rec) known -> Permutation rec rec' ->
      effectOf E (statement f h (YMap rec')) = effectOf E (statement f h (YMap rec))) ->
  Forall (fun row => exists rec, row = YMap rec) items ->
  (forall row, In row items -> In row known) ->
  Forall2 sameRow items items' ->
  map (fun row => effectOf E (statement f h row)) items
  = map (fun row => effectOf E (statement f h row)) items'.
Proof.
  intros Heng Hmaps Hin H. induction H as [|row row' items items' Hrow _ IH]; [reflexivity|].
  inversion Hmaps as [|? ? [rec ->] Hmaps']; subst. cbn [map]. f_equal.
  - destruct row' as [| | | | | |rec']; cbn in Hrow; try discriminate Hrow.
    symmetry. apply Heng; [apply Hin; now left | exact Hrow].
  - apply IH; [exact Hmaps'|]. intros r Hr. apply Hin. now right.
Qed.

Lemma same_document_read_alike h f :
  sameDocument (yaml1 (content f)) (yaml2 (content f)) ->
  (forall rec rec',
      In (YMap rec) (rows1 f) -> Permutation rec rec' ->
      effectOf E (statement f h (YMap rec')) = effectOf E (statement f h (YMap rec))) ->
  Forall (fun row => exists rec, row = YMap rec) (rows1 f) ->
  Permutation (map (effectOf E) (inserts1 h f)) (map (effectOf E) (inserts2 h f)).
Proof.
  unfold insertsOf, recordsOf, sameDocument. rewrite !map_map.
  destruct (yaml1 (content f)) as [[| | | | |items|entries]|e1];
    destruct (yaml2 (content f)) as [[| | | | |items'|entries']|e2];
    intros Hdoc Heng Hmaps; try discriminate Hdoc; try reflexivity;
    try (injection Hdoc as <-; reflexivity).
  - rewrite (same_rows_read_alike h f items items' items Heng Hmaps (fun _ H => H) Hdoc).
    reflexivity.
  - destruct Hdoc as (shuffled & Hperm & Hall).
    transitivity (map (fun row => effectOf E (statement f h row)) (map snd shuffled)).
    + now apply Permutation_map, Permutation_map.
    + assert (Hin : forall row, In row (map snd shuffled) -> In row (map snd entries)).
      { intros row. apply Permutation_in. now apply Permutation_map, Permutation_sym. }
      rewrite (same_rows_read_alike h f (map snd shuffled) (map snd entries')
                 (map snd entries) Heng); [reflexivity| |exact Hin|].
      * apply Forall_forall. intros row Hrow.
        exact (proj1 (Forall_forall _ _) Hmaps row (Hin row Hrow)).
      * clear -Hall. induction Hall as [|e e' l l' [_ Hs] _ IH]; cbn; constructor; assumption.
Qed.


End TwoLoads.


(** ** The claims on the sample data *)

Lemma bracketHelper_bracketing (name : string) (quote : string -> string) (pt : ParamType) :
  bracketing name (bracketHelper name quote pt).
Proof. repeat split. Qed.

Lemma quoteBacktick_nonempty (s : string) : Sample.quoteBacktick s <> EmptyString.
Proof. discriminate. Qed.

Lemma Load_runs_in_order_witness :
  bracketing "app_test" Sample.postgres
  /\ Load Sample.yaml Sample.accepting Sample.isDateTime Sample.isDate Sample.isTime
       Sample.isTestName false
       (Sample.context Sample.postgres [Sample.posts; Sample.tags]) []
     = (Done None,
        [EvDatabaseName "app_test"; EvIntegrityOff;
         EvExec "DELETE FROM `posts`" [] None; EvTableBegin "posts";
         EvExec "INSERT INTO `posts` (`id`, `created_at`) VALUES ($1, $2)"
           [YInt 1; YString "2016-01-01 12:30:12"] None;
         EvExec "INSERT INTO `posts` (`id`, `day`) VALUES ($1, $2)"
           [YInt 2; YString "2016-01-02"] None;
         EvTableEnd "posts";
         EvExec "DELETE FROM `tags`" [] None; EvTableBegin "tags";
         EvExec "INSERT INTO `tags` (`id`, `day`) VALUES ($1, $2)"
           [YInt 2; YString "2016-01-02"] None;
         EvTableEnd "tags"; EvIntegrityOn])
  /\ Sample.isTestName "app_test" = true.
Proof.
  assert (Hb : bracketing "app_test" Sample.postgres) by apply bracketHelper_bracketing.
  split; [exact Hb|]. split; [vm_compute; reflexivity|].
  refine (proj1 (proj2
    (Load_runs_in_order Sample.yaml Sample.accepting Sample.isDateTime Sample.isDate
       Sample.isTime Sample.isTestName "app_test" false
       (Sample.context Sample.postgres [Sample.posts; Sample.tags]) [] _ Hb _)) eq_refl).
  vm_compute; reflexivity.
Defined.

Lemma Load_stops_at_first_error_witness :
  bracketing "app_test" Sample.postgres
  /\ Load Sample.yaml (Sample.refusing "INSERT INTO `posts` (`id`, `day`) VALUES ($1, $2)")
       Sample.isDateTime Sample.isDate Sample.isTime Sample.isTestName false
       (Sample.context Sample.postgres [Sample.tags; Sample.posts; Sample.broken]) []
     = (Done (Some (errDriver "refused")),
        [EvDatabaseName "app_test"; EvIntegrityOff;
         EvExec "DELETE FROM `tags`" [] None; EvTableBegin "tags";
         EvExec "INSERT INTO `tags` (`id`, `day`) VALUES ($1, $2)"
           [YInt 2; YString "2016-01-02"] None;
         EvTableEnd "tags";
         EvExec "DELETE FROM `posts`" [] None; EvTableBegin "posts";
         EvExec "INSERT INTO `posts` (`id`, `created_at`) VALUES ($1, $2)"
           [YInt 1; YString "2016-01-01 12:30:12"] None;
         EvExec "INSERT INTO `posts` (`id`, `day`) VALUES ($1, $2)"
           [YInt 2; YString "2016-01-02"] (Some (errDriver "refused"));
         EvTableEnd "posts"; EvIntegrityOn]).
Proof.
  assert (Hb : bracketing "app_test" Sample.postgres) by apply bracketHelper_bracketing.
  split; [exact Hb|].
  refine (proj1
    (Load_stops_at_first_error Sample.yaml
       (Sample.refusing "INSERT INTO `posts` (`id`, `day`) VALUES ($1, $2)")
       Sample.isDateTime Sample.isDate Sample.isTime Sample.isTestName
       "app_test" false Sample.postgres Sample.conn
       [Sample.tags] Sample.posts [Sample.broken] []
       [EvDatabaseName "app_test"]
       [EvDatabaseName "app_test"; EvIntegrityOff;
        EvExec "DELETE FROM `tags`" [] None; EvTableBegin "tags";
        EvExec "INSERT INTO `tags` (`id`, `day`) VALUES ($1, $2)"
          [YInt 2; YString "2016-01-02"] None;
        EvTableEnd "tags"]
       [EvDatabaseName "app_test"; EvIntegrityOff;
        EvExec "DELETE FROM `tags`" [] None; EvTableBegin "tags";
        EvExec "INSERT INTO `tags` (`id`, `day`) VALUES ($1, $2)"
          [YInt 2; YString "2016-01-02"] None;
        EvTableEnd "tags";
        EvExec "DELETE FROM `posts`" [] None; EvTableBegin "posts";
        EvExec "INSERT INTO `posts` (`id`, `created_at`) VALUES ($1, $2)"
          [YInt 1; YString "2016-01-01 12:30:12"] None;
        EvExec "INSERT INTO `posts` (`id`, `day`) VALUES ($1, $2)"
          [YInt 2; YString "2016-01-02"] (Some (errDriver "refused"));
        EvTableEnd "posts"]
       (errDriver "refused") Hb _ _ _));
    vm_compute; reflexivity.
Defined.

Lemma Load_checks_database_name_witness :
  databaseName Sample.production Sample.conn [] = (Done "production", [EvDatabaseName "production"])
  /\ Sample.isTestName "production" = false
  /\ Load Sample.yaml Sample.accepting Sample.isDateTime Sample.isDate Sample.isTime
       Sample.isTestName false (Sample.context Sample.production [Sample.posts]) []
     = (Done (Some errNotTestDatabase), [EvDatabaseName "production"]).
Proof.
  split; [reflexivity|]. split; [reflexivity|].
  apply (proj1 (Load_checks_database_name Sample.yaml Sample.accepting Sample.isDateTime
                  Sample.isDate Sample.isTime Sample.isTestName
                  (Sample.context Sample.production [Sample.posts]) [])
           "production" [EvDatabaseName "production"]);
    reflexivity.
Defined.

Lemma buildInsertSQL_position_for_position_witness :
  (forall k v, In (k, v) [("id", YInt 1); ("title", YString "hello")] ->
               quoteKeyword Sample.postgres k <> EmptyString)
  /\ exists columns placeholders,
      buildInsertSQL Sample.isDateTime Sample.isDate Sample.isTime Sample.posts
        Sample.postgres (stringRecord [("id", YInt 1); ("title", YString "hello")])
      = ("INSERT INTO `posts` (" ++ String.concat ", " columns
           ++ ") VALUES (" ++ String.concat ", " placeholders ++ ")",
         [YInt 1; YString "hello"], None)
      /\ nth_error columns 1 = Some "`title`"
      /\ nth_error placeholders 1 = Some "$2".
Proof.
  split; [exact (fun k _ _ => quoteBacktick_nonempty k)|].
  destruct (buildInsertSQL_position_for_position Sample.isDateTime Sample.isDate
              Sample.isTime Sample.posts Sample.postgres
              [("id", YInt 1); ("title", YString "hello")]
              (fun k _ _ => quoteBacktick_nonempty k))
    as (columns & placeholders & E & _ & _ & Hn).
  destruct (Hn 1%nat "title" (YString "hello") eq_refl) as (Hc & _ & ph & Hp & Hf).
  exists columns, placeholders. split; [exact E|]. split; [exact Hc|].
  rewrite Hp. f_equal. exact Hf.
Defined.


Lemma buildInsertSQL_colon_casts_witness :
  paramType Sample.oracle = paramTypeColon
  /\ (forall k v,
        In (k, v) [("at", YString "2016-01-01 12:30:12"); ("day", YString "2016-01-02");
                   ("hour", YString "12:30:12"); ("id", YInt 4)] ->
        quoteKeyword Sample.oracle k <> EmptyString)
  /\ exists columns placeholders,
      buildInsertSQL Sample.isDateTime Sample.isDate Sample.isTime Sample.posts
        Sample.oracle
        (stringRecord [("at", YString "2016-01-01 12:30:12"); ("day", YString "2016-01-02");
                       ("hour", YString "12:30:12"); ("id", YInt 4)])
      = ("INSERT INTO `posts` (" ++ String.concat ", " columns
           ++ ") VALUES (" ++ String.concat ", " placeholders ++ ")",
         [YString "2016-01-01 12:30:12"; YString "2016-01-02"; YString "12:30:12"; YInt 4],
         None)
      /\ nth_error placeholders 0 = Some "to_date(:1, 'YYYY-MM-DD HH24:MI:SS')"
      /\ nth_error placeholders 1 = Some "to_date(:2, 'YYYY-MM-DD')"
      /\ nth_error placeholders 2 = Some "to_date(:3, 'HH24:MI:SS')"
      /\ nth_error placeholders 3 = Some ":4".
Proof.
  split; [reflexivity|]. split; [exact (fun k _ _ => quoteBacktick_nonempty k)|].
  destruct (buildInsertSQL_colon_casts Sample.isDateTime Sample.isDate Sample.isTime
              Sample.posts Sample.oracle
              [("at", YString "2016-01-01 12:30:12"); ("day", YString "2016-01-02");
               ("hour", YString "12:30:12"); ("id", YInt 4)]
              eq_refl (fun k _ _ => quoteBacktick_nonempty k))
    as (columns & placeholders & E & _ & Hn).
  exists columns, placeholders. split; [exact E|].
  destruct (Hn 0%nat _ _ eq_refl) as (p0 & H0 & D0 & _).
  destruct (Hn 1%nat _ _ eq_refl) as (p1 & H1 & _ & D1 & _).
  destruct (Hn 2%nat _ _ eq_refl) as (p2 & H2 & _ & _ & D2 & _).
  destruct (Hn 3%nat _ _ eq_refl) as (p3 & H3 & _ & _ & _ & D3).
  rewrite H0, H1, H2, H3.
  rewrite (D0 eq_refl), (D1 eq_refl eq_refl), (D2 eq_refl eq_refl eq_refl),
    (D3 eq_refl eq_refl eq_refl).
  repeat split.
Defined.


Lemma insert_nil_panics_witness :
  Sample.yaml (content Sample.empty) = inl YNil
  /\ insert Sample.yaml Sample.accepting Sample.isDateTime Sample.isDate Sample.isTime
       Sample.empty (SqlTx Sample.conn) Sample.postgres []
     = (Panicked "runtime error: invalid memory address or nil pointer dereference", []).
Proof.
  split; [reflexivity|].
  exact (insert_nil_panics Sample.yaml Sample.accepting Sample.isDateTime Sample.isDate
           Sample.isTime Sample.empty (SqlTx Sample.conn) Sample.postgres [] eq_refl).
Defined.

(** C6 (the code departs from it). The table name is the file name with the
    leftmost occurrence of its extension removed, not with its extension
    stripped: for [app.yml_data.yml] the statements address [app_data.yml],
    where stripping the extension gives [app.yml_data]. *)
Theorem fileNameWithoutExtension_removes_leftmost :
  filepath_Ext "app.yml_data.yml" = ".yml"
  /\ fileNameWithoutExtension (Sample.file "app.yml_data.yml" Sample.postsYml)
     = "app_data.yml"
  /\ strings_TrimSuffix "app.yml_data.yml" ".yml" = "app.yml_data"
  /\ fileNameWithoutExtension (Sample.file "posts.yml" Sample.postsYml) = "posts".
Proof. repeat split. Qed.

(** ** Further runs on the sample data *)

Example question_style_statement :
  buildInsertSQL Sample.isDateTime Sample.isDate Sample.isTime Sample.posts
    Sample.mysql Sample.post1
  = ("INSERT INTO `posts` (`id`, `created_at`) VALUES (?, ?)",
     [YInt 1; YString "2016-01-01 12:30:12"], None).
Proof. reflexivity. Qed.

Example scalar_file_rejected :
  Load Sample.yaml Sample.accepting Sample.isDateTime Sample.isDate Sample.isTime
    Sample.isTestName false (Sample.context Sample.postgres [Sample.scalar; Sample.tags]) []
  = (Done (Some ErrFileIsNotSliceOrMap),
     [EvDatabaseName "app_test"; EvIntegrityOff;
      EvExec "DELETE FROM `scalar`" [] None;
      EvTableBegin "scalar"; EvTableEnd "scalar"; EvIntegrityOn]).
Proof. reflexivity. Qed.

Example skipped_check_loads_production :
  Load Sample.yaml Sample.accepting Sample.isDateTime Sample.isDate Sample.isTime
    Sample.isTestName true (Sample.context Sample.production [Sample.tags]) []
  = (Done None,
     [EvIntegrityOff; EvExec "DELETE FROM `tags`" [] None; EvTableBegin "tags";
      EvExec "INSERT INTO `tags` (`id`, `day`) VALUES ($1, $2)"
        [YInt 2; YString "2016-01-02"] None;
      EvTableEnd "tags"; EvIntegrityOn]).
Proof. reflexivity. Qed.

Example nan_key_panics :
  insert SampleEngine.firstDecode Sample.accepting Sample.isDateTime Sample.isDate
    Sample.isTime SampleEngine.notANumber (SqlTx Sample.conn) Sample.mysql []
  = (Panicked "reflect: call of reflect.Value.Interface on zero Value", []).
Proof. reflexivity. Qed.

(** ** The further properties on the sample data *)

Lemma NewFiles_returns_named_files_witness :
  exists c,
    NewFiles SampleFiles.readFile Sample.conn Sample.postgres
      ["fixtures/tags.yml"; "fixtures/posts.yml"; "fixtures/tags.yml"] = inl c
    /\ db c = Sample.conn /\ helper c = Sample.postgres
    /\ map path (fixturesFiles c)
       = ["fixtures/tags.yml"; "fixtures/posts.yml"; "fixtures/tags.yml"]
    /\ Forall (fun fx => fileName fx = filepath_Base (path fx)
                         /\ SampleFiles.readFile (path fx) = inl (content fx))
              (fixturesFiles c).
Proof.
  eexists. split; [reflexivity|].
  exact (NewFiles_returns_named_files SampleFiles.readFile Sample.conn Sample.postgres
           ["fixtures/tags.yml"; "fixtures/posts.yml"; "fixtures/tags.yml"] _ eq_refl).
Defined.

Lemma NewFiles_first_unreadable_witness :
  Forall (fun f => exists bytes, SampleFiles.readFile f = inl bytes) ["locked/posts.yml"]
  /\ SampleFiles.readFile "locked/secret.yml"
     = inr (PathError "open" "locked/secret.yml" "permission denied")
  /\ NewFiles SampleFiles.readFile Sample.conn Sample.postgres
       ["locked/posts.yml"; "locked/secret.yml"; "nowhere.yml"]
     = inr (PathError "open" "locked/secret.yml" "permission denied").
Proof.
  assert (H : Forall (fun f => exists bytes, SampleFiles.readFile f = inl bytes)
                     ["locked/posts.yml"])
    by (constructor; [now exists Sample.postsYml | constructor]).
  split; [exact H|]. split; [reflexivity|].
  exact (NewFiles_first_unreadable SampleFiles.readFile Sample.conn Sample.postgres
           ["locked/posts.yml"] "locked/secret.yml" ["nowhere.yml"] _ H eq_refl).
Defined.

Lemma NewFiles_readable_witness :
  (forall f, In f ["fixtures/tags.yml"; "locked/tags.yml"] ->
             SampleFiles.readFile f = inl Sample.tagsYml)
  /\ NewFiles SampleFiles.readFile Sample.conn Sample.mysql
       ["fixtures/tags.yml"; "locked/tags.yml"]
     = inl {| db := Sample.conn; helper := Sample.mysql;
              fixturesFiles :=
                [ {| path := "fixtures/tags.yml"; fileName := "tags.yml";
                     content := Sample.tagsYml |};
                  {| path := "locked/tags.yml"; fileName := "tags.yml";
                     content := Sample.tagsYml |} ] |}.
Proof.
  assert (H : forall f, In f ["fixtures/tags.yml"; "locked/tags.yml"] ->
                        SampleFiles.readFile f = inl Sample.tagsYml)
    by (intros f [<-|[<-|[]]]; reflexivity).
  split; [exact H|].
  exact (NewFiles_readable SampleFiles.readFile (fun _ => Sample.tagsYml)
           Sample.conn Sample.mysql ["fixtures/tags.yml"; "locked/tags.yml"] H).
Defined.

Lemma NewFolder_selects_yml_witness :
  exists c,
    NewFolder SampleFiles.readDir SampleFiles.readFile SampleFiles.join
      Sample.conn Sample.postgres "fixtures" = inl c
    /\ map fileName (fixturesFiles c) = ["posts.yml"; "tags.yml"]
    /\ Forall (fun fx => path fx = SampleFiles.join "fixtures" (fileName fx)
                         /\ SampleFiles.readFile (path fx) = inl (content fx)
                         /\ filepath_Ext (fileName fx) = ".yml")
              (fixturesFiles c).
Proof.
  eexists. split; [reflexivity|].
  destruct (NewFolder_selects_yml SampleFiles.readDir SampleFiles.readFile SampleFiles.join
              Sample.conn Sample.postgres "fixtures" _ eq_refl)
    as (_ & _ & fileinfos & _ & _ & Hall).
  split; [reflexivity | exact Hall].
Defined.

Lemma NewFolder_ignores_other_entries_witness :
  SampleFiles.readDir "fixtures"
  = inl [ {| Name := "archive"; IsDir := true |};
          {| Name := "comments.yaml"; IsDir := false |};
          {| Name := "old.yml"; IsDir := true |};
          {| Name := "posts.yml"; IsDir := false |};
          {| Name := "tags.yml"; IsDir := false |} ]
  /\ SampleFiles.readFile "fixtures/comments.yaml"
     = inr (PathError "open" "fixtures/comments.yaml" "no such file or directory")
  /\ NewFolder SampleFiles.readDir SampleFiles.readFile SampleFiles.join
       Sample.conn Sample.postgres "fixtures"
     = inl (Sample.context Sample.postgres [Sample.posts; Sample.tags]).
Proof.
  split; [reflexivity|]. split; [reflexivity|].
  refine (NewFolder_ignores_other_entries SampleFiles.readDir SampleFiles.readFile
            SampleFiles.join
            (fun n => if String.eqb n "posts.yml" then Sample.postsYml else Sample.tagsYml)
            Sample.conn Sample.postgres "fixtures" _ eq_refl _).
  intros fi [<-|[<-|[<-|[<-|[<-|[]]]]]] H; vm_compute in H; try discriminate H; reflexivity.
Defined.

Lemma NewFolder_first_error_witness :
  SampleFiles.readDir "locked"
  = inl ([ {| Name := "posts.yml"; IsDir := false |} ]
           ++ {| Name := "secret.yml"; IsDir := false |}
           :: [ {| Name := "tags.yml"; IsDir := false |} ])%list
  /\ SampleFiles.readFile (SampleFiles.join "locked" "secret.yml")
     = inr (PathError "open" "locked/secret.yml" "permission denied")
  /\ NewFolder SampleFiles.readDir SampleFiles.readFile SampleFiles.join
       Sample.conn Sample.postgres "locked"
     = inr (PathError "open" "locked/secret.yml" "permission denied").
Proof.
  split; [reflexivity|]. split; [reflexivity|].
  apply (NewFolder_first_error SampleFiles.readDir SampleFiles.readFile SampleFiles.join).
  right. exists [ {| Name := "posts.yml"; IsDir := false |} ],
           {| Name := "secret.yml"; IsDir := false |},
           [ {| Name := "tags.yml"; IsDir := false |} ].
  split; [reflexivity|]. split; [|split; reflexivity].
  constructor; [|constructor]. intros _. now exists Sample.postsYml.
Defined.

Lemma fileNameWithoutExtension_simple_name_witness :
  noByte "." "posts_tags" = true /\ noByte "." "yml" = true /\ noByte "/" "yml" = true
  /\ fileName (Sample.file "posts_tags.yml" Sample.postsYml) = "posts_tags" ++ "." ++ "yml"
  /\ fileNameWithoutExtension (Sample.file "posts_tags.yml" Sample.postsYml) = "posts_tags".
Proof.
  repeat (split; [reflexivity|]).
  exact (fileNameWithoutExtension_simple_name
           (Sample.file "posts_tags.yml" Sample.postsYml) "posts_tags" "yml"
           eq_refl eq_refl eq_refl eq_refl).
Defined.

Lemma fileNameWithoutExtension_no_dot_witness :
  noByte "." (fileName (Sample.file "README" Sample.scalarYml)) = true
  /\ fileNameWithoutExtension (Sample.file "README" Sample.scalarYml) = "README".
Proof.
  split; [reflexivity|].
  exact (fileNameWithoutExtension_no_dot (Sample.file "README" Sample.scalarYml) eq_refl).
Defined.

Lemma NewFiles_table_of_path_witness :
  exists c,
    noByte "." "posts" = true /\ noByte "/" "posts" = true
    /\ noByte "." "yml" = true /\ noByte "/" "yml" = true
    /\ NewFiles SampleFiles.readFile Sample.conn Sample.postgres
         (["fixtures/tags.yml"] ++ ("fixtures" ++ "/" ++ "posts" ++ "." ++ "yml")%string :: [])%list
       = inl c
    /\ nth_error (map fileNameWithoutExtension (fixturesFiles c)) 1 = Some "posts".
Proof.
  eexists. repeat (split; [reflexivity|]).
  exact (NewFiles_table_of_path SampleFiles.readFile Sample.conn Sample.postgres
           ["fixtures/tags.yml"] [] _ "fixtures" "posts" "yml"
           eq_refl eq_refl eq_refl eq_refl eq_refl).
Defined.

Lemma buildInsertSQL_stops_at_key_witness :
  isStringKey (YInt 7) = false
  /\ buildInsertSQL Sample.isDateTime Sample.isDate Sample.isTime Sample.broken
       Sample.postgres
       (stringRecord [("id", YInt 3)] ++ (YInt 7, YString "seven")
          :: [(YString "name", YString "unseen")])%list
     = (EmptyString, [YInt 3], Some ErrKeyIsNotString).
Proof.
  split; [reflexivity|].
  exact (buildInsertSQL_stops_at_key Sample.isDateTime Sample.isDate Sample.isTime
           Sample.broken Sample.postgres [("id", YInt 3)] (YInt 7) (YString "seven")
           [(YString "name", YString "unseen")] eq_refl).
Defined.

Lemma buildInsertSQL_text_ignores_values_witness :
  Forall2 (sameColumn Sample.isDateTime Sample.isDate Sample.isTime Sample.postgres)
    Sample.post1
    [(YString "id", YString "1; DROP TABLE posts"); (YString "created_at", YNil)]
  /\ fst (fst (buildInsertSQL Sample.isDateTime Sample.isDate Sample.isTime Sample.posts
                 Sample.postgres
                 [(YString "id", YString "1; DROP TABLE posts");
                  (YString "created_at", YNil)]))
     = "INSERT INTO `posts` (`id`, `created_at`) VALUES ($1, $2)".
Proof.
  assert (H : Forall2 (sameColumn Sample.isDateTime Sample.isDate Sample.isTime
                         Sample.postgres)
                Sample.post1
                [(YString "id", YString "1; DROP TABLE posts");
                 (YString "created_at", YNil)])
    by (constructor; [split; [reflexivity | intros C; discriminate C]|];
        constructor; [split; [reflexivity | intros C; discriminate C] | constructor]).
  split; [exact H|].
  rewrite <- (proj1 (buildInsertSQL_text_ignores_values Sample.isDateTime Sample.isDate
                       Sample.isTime Sample.posts Sample.postgres _ _ H)).
  reflexivity.
Defined.

Lemma insert_rejects_non_mapping_row_witness :
  (forall rec, YInt 5 <> YMap rec)
  /\ insertRows Sample.accepting Sample.isDateTime Sample.isDate Sample.isTime
       Sample.posts (SqlTx Sample.conn) Sample.postgres [YMap Sample.post1] []
     = (Done None,
        [EvExec "INSERT INTO `posts` (`id`, `created_at`) VALUES ($1, $2)"
           [YInt 1; YString "2016-01-01 12:30:12"] None])
  /\ insert (fun _ => inl (YSlice ([YMap Sample.post1] ++ YInt 5 :: [YMap Sample.post2])))
       Sample.accepting Sample.isDateTime Sample.isDate Sample.isTime
       Sample.posts (SqlTx Sample.conn) Sample.postgres []
     = (Done (Some ErrWrongCastNotAMap),
        [EvExec "INSERT INTO `posts` (`id`, `created_at`) VALUES ($1, $2)"
           [YInt 1; YString "2016-01-01 12:30:12"] None]).
Proof.
  assert (H : forall rec, YInt 5 <> YMap rec) by (intros rec; discriminate).
  split; [exact H|]. split; [reflexivity|].
  exact (insert_rejects_non_mapping_row
           (fun _ => inl (YSlice ([YMap Sample.post1] ++ YInt 5 :: [YMap Sample.post2])))
           Sample.accepting Sample.isDateTime Sample.isDate Sample.isTime
           Sample.posts (SqlTx Sample.conn) Sample.postgres
           [YMap Sample.post1] [YMap Sample.post2] (YInt 5) [] _ H eq_refl eq_refl).
Defined.

Lemma Load_executes_only_compiled_statements_witness :
  bracketing "app_test" Sample.postgres
  /\ exists T,
      snd (Load Sample.yaml (Sample.refusing "DELETE FROM `tags`") Sample.isDateTime
             Sample.isDate Sample.isTime Sample.isTestName false
             (Sample.context Sample.postgres [Sample.broken; Sample.tags]) [])
      = ([] ++ T)%list
      /\ Forall (fun ev =>
                   isMarker ev
                   \/ exists f,
                       In f [Sample.broken; Sample.tags]
                       /\ ((exists res,
                               ev = EvExec ("DELETE FROM "
                                              ++ quoteKeyword Sample.postgres
                                                   (fileNameWithoutExtension f)) [] res)
                           \/ exists rec sqlStr vals res,
                               In (YMap rec) (recordsOf Sample.yaml f)
                               /\ buildInsertSQL Sample.isDateTime Sample.isDate
                                    Sample.isTime f Sample.postgres rec
                                  = (sqlStr, vals, None)
                               /\ ev = EvExec sqlStr vals res))
                T.
Proof.
  assert (Hb : bracketing "app_test" Sample.postgres) by apply bracketHelper_bracketing.
  split; [exact Hb|].
  exact (Load_executes_only_compiled_statements Sample.yaml
           (Sample.refusing "DELETE FROM `tags`") Sample.isDateTime Sample.isDate
           Sample.isTime Sample.isTestName "app_test" false
           (Sample.context Sample.postgres [Sample.broken; Sample.tags]) [] Hb).
Defined.

Lemma loadFile_wipes_first_witness :
  bracketing "app_test" Sample.postgres
  /\ exists T,
      snd (loadFile Sample.yaml Sample.accepting Sample.isDateTime Sample.isDate
             Sample.isTime (SqlTx Sample.conn) Sample.postgres Sample.scalar [])
      = ([] ++ EvExec "DELETE FROM `scalar`" [] None :: T)%list.
Proof.
  assert (Hb : bracketing "app_test" Sample.postgres) by apply bracketHelper_bracketing.
  split; [exact Hb|].
  exact (loadFile_wipes_first Sample.yaml Sample.accepting Sample.isDateTime Sample.isDate
           Sample.isTime "app_test" Sample.postgres (SqlTx Sample.conn) Sample.scalar [] Hb).
Defined.

Lemma Load_succeeds_on_well_formed_witness :
  bracketing "app_test" Sample.postgres
  /\ Sample.isTestName "app_test" = true
  /\ accepts (Sample.refusing "DROP TABLE posts") []
       (loadTrace Sample.yaml Sample.isDateTime Sample.isDate Sample.isTime
          false "app_test" (Sample.context Sample.postgres [Sample.posts; Sample.tags]))
  /\ Load Sample.yaml (Sample.refusing "DROP TABLE posts") Sample.isDateTime Sample.isDate
       Sample.isTime Sample.isTestName false
       (Sample.context Sample.postgres [Sample.posts; Sample.tags]) []
     = (Done None,
        ([] ++ loadTrace Sample.yaml Sample.isDateTime Sample.isDate Sample.isTime
                 false "app_test"
                 (Sample.context Sample.postgres [Sample.posts; Sample.tags]))%list).
Proof.
  assert (Hb : bracketing "app_test" Sample.postgres) by apply bracketHelper_bracketing.
  assert (Ha : accepts (Sample.refusing "DROP TABLE posts") []
                 (loadTrace Sample.yaml Sample.isDateTime Sample.isDate Sample.isTime
                    false "app_test"
                    (Sample.context Sample.postgres [Sample.posts; Sample.tags]))).
  { apply accepts_of_In. intros sql args res w' H. vm_compute in H.
    repeat (destruct H as [H|H]; [try discriminate H; injection H as <- _ _; reflexivity|]).
    destruct H. }
  split; [exact Hb|]. split; [reflexivity|]. split; [exact Ha|].
  apply (Load_succeeds_on_well_formed Sample.yaml (Sample.refusing "DROP TABLE posts")
           Sample.isDateTime Sample.isDate Sample.isTime Sample.isTestName
           "app_test" false
           (Sample.context Sample.postgres [Sample.posts; Sample.tags]) [] Hb).
  - reflexivity.
  - repeat constructor; eexists; split; reflexivity.
  - exact Ha.
Defined.
